(** * LoRa demodulator block (LoRaDemod.cpp): model and verification

    The block turns a stream of complex baseband samples into frames of
    symbols.  Each call of [work] dechirps one window of [N] samples with
    the reference chirp of the current state, asks the detector for the
    symbol of the window and advances a five-state synchronisation machine.

    Fixed-width machine integers are integers of [Z] with the wrap-around of
    their C++ type written out.  Floating-point and complex arithmetic, and
    the FFT peak search of the detector, are taken through the interfaces
    [Numerics] and [LoRaDetector].  The symbol buffers are reference-counted
    chunks shared between the block and the packets it posts: they live in a
    heap and are named by their location. *)

From Stdlib Require Import ZArith Lia Bool.
From stdpp Require Import base list strings.

Local Open Scope Z_scope.

(** ** Machine integers *)

(** [size_t] on the 64-bit targets of the block: arithmetic modulo 2^64. *)
Definition to_size_t (z : Z) : Z := z mod 2 ^ 64.

(** [int]: 32 bits, two's complement. *)
Definition to_int (z : Z) : Z := (z + 2 ^ 31) mod 2 ^ 32 - 2 ^ 31.

(** [int16_t] and [short]: 16 bits, two's complement. *)
Definition to_int16 (z : Z) : Z := (z + 2 ^ 15) mod 2 ^ 16 - 2 ^ 15.

(** ** Outcome of code that can run into undefined behaviour *)

Inductive fault : Type :=
  | OutOfBounds (index capacity : Z).

Inductive result (A : Type) : Type :=
  | Done (a : A)
  | Fault (f : fault).

Arguments Done {A} a.
Arguments Fault {A} f.

#[global] Instance result_ret : MRet result := fun A a => Done a.

#[global] Instance result_bind : MBind result := fun A B k r =>
  match r with
  | Done a => k a
  | Fault f => Fault f
  end.

Definition rejects {A : Type} (r : result A) : Prop :=
  match r with
  | Done _ => False
  | Fault _ => True
  end.

(** ** Numeric interface *)

(** [double], [std::complex<double>] and [std::complex<float>] with the
    operations the block uses on them. *)
Class Numerics : Type := {
  real : Type;
  cdouble : Type;
  cplx : Type;
  r_zero : real;
  r_one : real;
  M_PI : real;
  r_of_size_t : Z -> real;
  r_add : real -> real -> real;
  r_mul : real -> real -> real;
  r_div : real -> real -> real;
  polar : real -> real -> cdouble;
  conj : cdouble -> cdouble;
  to_float : cdouble -> cplx;
  c_zero : cplx;
  c_mul : cplx -> cplx -> cplx
}.

(** Modelled from the spec: LoRaDetector (LoRaDetector.hpp is not among the
    sources).  [feed i samp] stores the i-th dechirped sample of the current
    window; [detect] returns the index of the spectral bin of largest
    magnitude of the window, an integer of type [size_t].  The peak search
    itself is the field [peak_bin]. *)
Class LoRaDetector `{Numerics} : Type := {
  peak_bin : list cplx -> Z
}.

(** The heap of symbol buffers: chunk [l] is the [l]-th list.  A
    [Pothos::BufferChunk] is a reference to a chunk, [None] for the null
    chunk of a default-constructed member. *)
Abbreviation heap := (list (list Z)).

Section Demod.

Context `{Det : LoRaDetector}.

(** The detector built for windows of [n] samples. *)
Definition new_detector (n : Z) : list cplx := replicate (Z.to_nat n) c_zero.

Definition feed (i : nat) (samp : cplx) (det : list cplx) : list cplx :=
  <[i := samp]> det.

Definition detect (det : list cplx) : Z := peak_bin det.

(** ** Data model *)

Inductive LoraDemodState : Type :=
  | STATE_FRAMESYNC
  | STATE_DOWNCHIRP0
  | STATE_DOWNCHIRP1
  | STATE_QUARTERCHIRP
  | STATE_DATASYMBOLS.

(** The table [_chirpTable] points into. *)
Inductive chirp_ref : Type :=
  | UpChirp
  | DownChirp.


Record demod : Type := mkDemod {
  N : Z;
  _detector : list cplx;
  _chirpTable : chirp_ref;
  _upChirpTable : list cplx;
  _downChirpTable : list cplx;
  _sync : Z;
  _mtu : Z;
  _state : LoraDemodState;
  _symCount : Z;
  _outSymbols : option nat;
  _id : string;
  _prevValue : Z
}.

Definition set_detector (x : list cplx) (d : demod) : demod :=
  mkDemod (N d) x (_chirpTable d) (_upChirpTable d) (_downChirpTable d)
    (_sync d) (_mtu d) (_state d) (_symCount d) (_outSymbols d) (_id d)
    (_prevValue d).

Definition set_chirpTable (x : chirp_ref) (d : demod) : demod :=
  mkDemod (N d) (_detector d) x (_upChirpTable d) (_downChirpTable d)
    (_sync d) (_mtu d) (_state d) (_symCount d) (_outSymbols d) (_id d)
    (_prevValue d).

Definition set_sync (x : Z) (d : demod) : demod :=
  mkDemod (N d) (_detector d) (_chirpTable d) (_upChirpTable d)
    (_downChirpTable d) x (_mtu d) (_state d) (_symCount d) (_outSymbols d)
    (_id d) (_prevValue d).

Definition set_mtu (x : Z) (d : demod) : demod :=
  mkDemod (N d) (_detector d) (_chirpTable d) (_upChirpTable d)
    (_downChirpTable d) (_sync d) x (_state d) (_symCount d) (_outSymbols d)
    (_id d) (_prevValue d).

Definition set_state (x : LoraDemodState) (d : demod) : demod :=
  mkDemod (N d) (_detector d) (_chirpTable d) (_upChirpTable d)
    (_downChirpTable d) (_sync d) (_mtu d) x (_symCount d) (_outSymbols d)
    (_id d) (_prevValue d).

Definition set_symCount (x : Z) (d : demod) : demod :=
  mkDemod (N d) (_detector d) (_chirpTable d) (_upChirpTable d)
    (_downChirpTable d) (_sync d) (_mtu d) (_state d) x (_outSymbols d)
    (_id d) (_prevValue d).

Definition set_outSymbols (x : option nat) (d : demod) : demod :=
  mkDemod (N d) (_detector d) (_chirpTable d) (_upChirpTable d)
    (_downChirpTable d) (_sync d) (_mtu d) (_state d) (_symCount d) x
    (_id d) (_prevValue d).

Definition set_id (x : string) (d : demod) : demod :=
  mkDemod (N d) (_detector d) (_chirpTable d) (_upChirpTable d)
    (_downChirpTable d) (_sync d) (_mtu d) (_state d) (_symCount d)
    (_outSymbols d) x (_prevValue d).

Definition set_prevValue (x : Z) (d : demod) : demod :=
  mkDemod (N d) (_detector d) (_chirpTable d) (_upChirpTable d)
    (_downChirpTable d) (_sync d) (_mtu d) (_state d) (_symCount d)
    (_outSymbols d) (_id d) x.

(** ** Construction and configuration *)

(** The members the constructor leaves uninitialised hold indeterminate
    values until [activate] and the state machine assign them. *)
Record indeterminate : Type := {
  i_chirpTable : chirp_ref;
  i_state : LoraDemodState;
  i_symCount : Z;
  i_prevValue : Z
}.

(** The chirp table loop of the constructor, from index [i] on, [n]
    iterations left: the phase of each step is added to [phaseAccum] and the
    entry of that phase is pushed on both tables, conjugated on the up-chirp
    table. *)
Fixpoint chirp_loop (n : nat) (i : Z) (N : Z) (phaseAccum : real)
    (tables : list cplx * list cplx) : list cplx * list cplx :=
  match n with
  | O => tables
  | S n' =>
      let phase :=
        r_div (r_mul (r_of_size_t (to_size_t (2 * to_size_t (i + N / 2)))) M_PI)
              (r_of_size_t N) in
      let phaseAccum := r_add phaseAccum phase in
      let entry := polar r_one phaseAccum in
      chirp_loop n' (i + 1) N phaseAccum
        (tables.1 ++ [to_float (conj entry)], tables.2 ++ [to_float entry])
  end.

(** [LoRaDemod(sf)].  [1 << sf] shifts the [int] constant 1 and the result
    is converted to [size_t]: N = 2^sf for the spreading factors 0 to 30,
    the ones the theorems are about.  Past them the shift leaves the width
    of [int], where C++ does not define it; the wrap-around of 32-bit two's
    complement written here only makes the definition total. *)
Definition LoRaDemod (sf : Z) (junk : indeterminate) : demod :=
  let N := to_size_t (to_int (Z.shiftl 1 sf)) in
  let tables := chirp_loop (Z.to_nat N) 0 N r_zero ([], []) in
  {| N := N;
     _detector := new_detector N;
     _chirpTable := i_chirpTable junk;
     _upChirpTable := tables.1;
     _downChirpTable := tables.2;
     _sync := 18;
     _mtu := 256;
     _state := i_state junk;
     _symCount := i_symCount junk;
     _outSymbols := None;
     _id := "";
     _prevValue := i_prevValue junk |}.

Definition setSync (sync : Z) (d : demod) : result demod :=
  Done (set_sync sync d).

Definition setMTU (mtu : Z) (d : demod) : result demod :=
  Done (set_mtu mtu d).

Definition activate (d : demod) : demod :=
  set_chirpTable UpChirp (set_state STATE_FRAMESYNC d).

(** ** Ports *)

(** What the ports offer to one call of [work]: the unconsumed input of
    port 0 and the current buffers of the debug ports "raw" and "dec".
    [elements()] of a port is the length of its buffer. *)
Record view : Type := {
  in_buff : list cplx;
  raw_buff : list cplx;
  dec_buff : list cplx
}.

(** What one call of [work] does to the ports: input samples consumed, debug
    samples produced, buffer elements popped from the debug ports, labels
    posted on both debug ports at index 0 and packets posted on output 0,
    each packet holding a reference to its payload chunk. *)
Record effects : Type := {
  consumed : Z;
  raw_produced : list cplx;
  dec_produced : list cplx;
  raw_popped : Z;
  dec_popped : Z;
  labels : list string;
  posted : list (option nat)
}.

Definition no_effects : effects :=
  {| consumed := 0; raw_produced := []; dec_produced := [];
     raw_popped := 0; dec_popped := 0; labels := []; posted := [] |}.

Definition pop_raw (n : Z) : effects :=
  {| consumed := 0; raw_produced := []; dec_produced := [];
     raw_popped := n; dec_popped := 0; labels := []; posted := [] |}.

Definition pop_dec (n : Z) : effects :=
  {| consumed := 0; raw_produced := []; dec_produced := [];
     raw_popped := 0; dec_popped := n; labels := []; posted := [] |}.

(** ** Symbol buffers *)

(** [Pothos::BufferChunk(typeid(int16_t), n)]: a new chunk of [n] cells
    whose content is whatever [garbage] the allocator hands out. *)
Definition new_chunk (garbage : nat -> Z) (n : Z) (h : heap) : heap * option nat :=
  (h ++ [map garbage (seq 0 (Z.to_nat n))], Some (length h)).

(** The cells of a chunk; the null chunk has none. *)
Definition chunk_cells (h : heap) (c : option nat) : list Z :=
  match c with
  | Some l => default [] (h !! l)
  | None => []
  end.

(** [c.as<int16_t *>()[i] = x].  A write at or past the end of the chunk is
    undefined behaviour. *)
Definition store_symbol (h : heap) (c : option nat) (i x : Z) : result heap :=
  let capacity := Z.of_nat (length (chunk_cells h c)) in
  match c with
  | Some l =>
      if i <? capacity
      then Done (<[l := <[Z.to_nat i := x]> (chunk_cells h c)]> h)
      else Fault (OutOfBounds i capacity)
  | None => Fault (OutOfBounds i capacity)
  end.

(** ** The processing step *)

(** [buf[i]]; the reads of [work] are in range once its guards have passed
    and the tables have [N] entries. *)
Definition at_index (buf : list cplx) (i : nat) : cplx :=
  default c_zero (buf !! i).

Definition chirp_table (d : demod) : list cplx :=
  match _chirpTable d with
  | UpChirp => _upChirpTable d
  | DownChirp => _downChirpTable d
  end.

(** The buffers a dechirp loop writes: the raw and dec debug buffers and the
    window of the detector. *)
Record buffers : Type := {
  rawBuff : list cplx;
  decBuff : list cplx;
  detBuff : list cplx
}.

(** The dechirp loop over the window at offset [ofs] of the input, from
    index [i] on, [n] iterations left. *)
Fixpoint symbol_loop (n i ofs : nat) (inBuff chirp : list cplx) (b : buffers)
    : buffers :=
  match n with
  | O => b
  | S n' =>
      let samp := at_index inBuff (i + ofs) in
      let decd := c_mul samp (at_index chirp i) in
      symbol_loop n' (S i) ofs inBuff chirp
        {| rawBuff := <[(i + ofs)%nat := samp]> (rawBuff b);
           decBuff := <[(i + ofs)%nat := decd]> (decBuff b);
           detBuff := feed i decd (detBuff b) |}
  end.

(** The locals of [work] after the switch over the state. *)
Record switched : Type := {
  sw_demod : demod;
  sw_heap : heap;
  sw_total : Z;
  sw_buffers : buffers;
  sw_posted : list (option nat)
}.

Definition syncd_of (prevValue : Z) : bool := Z.quot (prevValue + 1) 2 =? 0.

Definition match0_of (value sync : Z) : bool :=
  to_size_t (value + 4) / 8 =? Z.shiftr sync 4.

Definition match1_of (value1 sync : Z) : bool :=
  to_size_t (value1 + 4) / 8 =? Z.land sync 15.

(** The second window of a frame-sync step: the [N] samples after the first
    window, dechirped into the second half of the debug buffers. *)
Definition second_window (d : demod) (v : view) (b : buffers) : buffers :=
  symbol_loop (Z.to_nat (N d)) 0 (Z.to_nat (N d)) (in_buff v) (chirp_table d) b.

Definition case_FRAMESYNC (d : demod) (h : heap) (v : view) (b : buffers)
    (value : Z) : switched :=
  let syncd := syncd_of (_prevValue d) in
  let match0 := match0_of value (_sync d) in
  let b1 := if syncd && match0 then second_window d v b else b in
  let match1 :=
    if syncd && match0 then match1_of (detect (detBuff b1)) (_sync d)
    else false in
  if syncd && match0 && match1
  then {| sw_demod :=
            set_id "SYNC" (set_chirpTable DownChirp (set_state STATE_DOWNCHIRP0 d));
          sw_heap := h; sw_total := to_size_t (2 * N d);
          sw_buffers := b1; sw_posted := [] |}
  else {| sw_demod := set_id "X" d;
          sw_heap := h; sw_total := to_size_t (N d - value);
          sw_buffers := b1; sw_posted := [] |}.

Definition case_DOWNCHIRP0 (d : demod) (h : heap) (b : buffers) : switched :=
  {| sw_demod := set_id "DC" (set_state STATE_DOWNCHIRP1 d);
     sw_heap := h; sw_total := N d; sw_buffers := b; sw_posted := [] |}.

Definition case_DOWNCHIRP1 (garbage : nat -> Z) (d : demod) (h : heap)
    (b : buffers) : switched :=
  let '(h', chunk) := new_chunk garbage (_mtu d) h in
  {| sw_demod :=
       set_outSymbols chunk
         (set_id "" (set_chirpTable UpChirp (set_state STATE_QUARTERCHIRP d)));
     sw_heap := h'; sw_total := N d; sw_buffers := b; sw_posted := [] |}.

Definition case_QUARTERCHIRP (d : demod) (h : heap) (b : buffers) : switched :=
  {| sw_demod := set_id "QC" (set_symCount 0 (set_state STATE_DATASYMBOLS d));
     sw_heap := h; sw_total := N d / 4; sw_buffers := b; sw_posted := [] |}.

Definition case_DATASYMBOLS (d : demod) (h : heap) (b : buffers) (value : Z)
    : result switched :=
  h' ← store_symbol h (_outSymbols d) (_symCount d) (to_int16 value);
  let d1 := set_symCount (to_size_t (_symCount d + 1)) d in
  if _mtu d1 <=? _symCount d1
  then mret {| sw_demod := set_id "S" (set_state STATE_FRAMESYNC d1);
               sw_heap := h'; sw_total := N d; sw_buffers := b;
               sw_posted := [_outSymbols d1] |}
  else mret {| sw_demod := set_id "S" d1;
               sw_heap := h'; sw_total := N d; sw_buffers := b;
               sw_posted := [] |}.

(** The window [work] dechirps first, and the symbol detected in it. *)
Definition first_window (d : demod) (v : view) : buffers :=
  symbol_loop (Z.to_nat (N d)) 0 0 (in_buff v) (chirp_table d)
    {| rawBuff := raw_buff v; decBuff := dec_buff v; detBuff := _detector d |}.

Definition detected (d : demod) (v : view) : Z :=
  detect (detBuff (first_window d v)).

(** The statements of [work] after the switch: the label, the accounting on
    the ports and the previous value. *)
Definition finish (value : Z) (s : switched) : demod * heap * effects :=
  let d := sw_demod s in
  let total := Z.to_nat (sw_total s) in
  (set_prevValue (to_int16 value) (set_detector (detBuff (sw_buffers s)) d),
   sw_heap s,
   {| consumed := sw_total s;
      raw_produced := take total (rawBuff (sw_buffers s));
      dec_produced := take total (decBuff (sw_buffers s));
      raw_popped := 0;
      dec_popped := 0;
      labels := if String.eqb (_id d) "" then [] else [_id d];
      posted := sw_posted s |}).

(** The switch over the state. *)
Definition switch (garbage : nat -> Z) (d : demod) (h : heap) (v : view)
    (b : buffers) (value : Z) : result switched :=
  match _state d with
  | STATE_FRAMESYNC => mret (case_FRAMESYNC d h v b value)
  | STATE_DOWNCHIRP0 => mret (case_DOWNCHIRP0 d h b)
  | STATE_DOWNCHIRP1 => mret (case_DOWNCHIRP1 garbage d h b)
  | STATE_QUARTERCHIRP => mret (case_QUARTERCHIRP d h b)
  | STATE_DATASYMBOLS => case_DATASYMBOLS d h b value
  end.

(** The three guards of [work]: enough input and enough room in both debug
    buffers. *)
Definition ready (d : demod) (v : view) : bool :=
  negb (Z.of_nat (length (in_buff v)) <? to_size_t (N d * 2))
  && negb (Z.of_nat (length (raw_buff v)) <? to_size_t (N d * 2))
  && negb (Z.of_nat (length (dec_buff v)) <? to_size_t (N d * 2)).

(** [work()].  [garbage] is the content of the memory the allocator hands
    out, should this step allocate. *)
Definition work (garbage : nat -> Z) (d : demod) (h : heap) (v : view)
    : result (demod * heap * effects) :=
  if Z.of_nat (length (in_buff v)) <? to_size_t (N d * 2) then
    mret (d, h, no_effects)
  else if Z.of_nat (length (raw_buff v)) <? to_size_t (N d * 2) then
    mret (d, h, pop_raw (Z.of_nat (length (raw_buff v))))
  else if Z.of_nat (length (dec_buff v)) <? to_size_t (N d * 2) then
    mret (d, h, pop_dec (Z.of_nat (length (dec_buff v))))
  else
    let value := detected d v in
    s ← switch garbage d h v (first_window d v) value;
    mret (finish value s).

(** The symbol detected in the second window of a frame-sync step, and the
    condition of the step for full sync. *)
Definition detected1 (d : demod) (v : view) : Z :=
  detect (detBuff (second_window d v (first_window d v))).

Definition full_sync (d : demod) (v : view) : bool :=
  syncd_of (_prevValue d) && match0_of (detected d v) (_sync d)
  && match1_of (detected1 d v) (_sync d).

(** ** Running the block on a stream *)

(** The debug buffers the block asks its buffer managers for
    ([getOutputBufferManager]): slabs of [N*2] samples. *)
Definition slab (d : demod) : list cplx :=
  replicate (Z.to_nat (to_size_t (N d * 2))) c_zero.

Definition stream_view (d : demod) (input : list cplx) : view :=
  {| in_buff := input; raw_buff := slab d; dec_buff := slab d |}.

(** [k] calls of [work] on the unconsumed part of [input], every call with
    fresh debug slabs; what each call consumes is dropped from the input.
    The log holds, for every call, the state it leaves and its effects. *)
Fixpoint run (garbage : nat -> Z) (k : nat) (d : demod) (h : heap)
    (input : list cplx)
    : result (demod * heap * list cplx * list (LoraDemodState * effects)) :=
  match k with
  | O => mret (d, h, input, [])
  | S k' =>
      '(d1, h1, e) ← work garbage d h (stream_view d input);
      '(d2, h2, rest, log) ←
        run garbage k' d1 h1 (drop (Z.to_nat (consumed e)) input);
      mret (d2, h2, rest, (_state d1, e) :: log)
  end.

(** The packets posted by a run, and the frames they carry: the cells their
    payload chunks hold in heap [h]. *)
Definition packets (log : list (LoraDemodState * effects)) : list (option nat) :=
  concat (map (fun s => posted s.2) log).


(** ** Reachable states *)

(** The correspondence between the state and the reference chirp. *)
Definition chirp_of_state (st : LoraDemodState) : chirp_ref :=
  match st with
  | STATE_DOWNCHIRP0 | STATE_DOWNCHIRP1 => DownChirp
  | STATE_FRAMESYNC | STATE_QUARTERCHIRP | STATE_DATASYMBOLS => UpChirp
  end.

(** The states of the block after its activation: any sequence of calls of
    [work], of the setters and of [activate] itself, on any heap and
    ports. *)
Inductive reachable : demod -> Prop :=
  | reachable_activate d :
      reachable (activate d)
  | reachable_work garbage d h v d' h' e :
      reachable d ->
      work garbage d h v = Done (d', h', e) ->
      reachable d'
  | reachable_setSync sync d d' :
      reachable d ->
      setSync sync d = Done d' ->
      reachable d'
  | reachable_setMTU mtu d d' :
      reachable d ->
      setMTU mtu d = Done d' ->
      reachable d'.

(** A frame as the history of a run records it: the payload chunk of the
    packet, the symbols detected for it, in order, and the MTU at the time
    of posting. *)
Record frame : Type := {
  payload : option nat;
  symbols : list Z;
  frame_mtu : Z
}.

(** The symbols detected by the data-symbol steps of the frame in progress,
    after one more call of [work]. *)
Definition collect (d : demod) (v : view) (cur : list Z) : list Z :=
  if ready d v then
    match _state d with
    | STATE_QUARTERCHIRP => []
    | STATE_DATASYMBOLS => cur ++ [detected d v]
    | _ => cur
    end
  else cur.

Definition record_frames (d : demod) (v : view) (cur : list Z) (e : effects)
    : list frame :=
  map (fun c => {| payload := c; symbols := collect d v cur;
                   frame_mtu := _mtu d |}) (posted e).

(** The runs of the block from the activation of [d0] on heap [h0], with
    the symbols of the frame in progress and the frames posted so far.  The
    sync word changes at any time, the MTU between frames. *)
Inductive history (d0 : demod) (h0 : heap)
    : demod -> heap -> list Z -> list frame -> Prop :=
  | history_activate :
      history d0 h0 (activate d0) h0 [] []
  | history_work garbage v d h cur fs d' h' e :
      history d0 h0 d h cur fs ->
      work garbage d h v = Done (d', h', e) ->
      history d0 h0 d' h' (collect d v cur) (fs ++ record_frames d v cur e)
  | history_setSync sync d h cur fs d' :
      history d0 h0 d h cur fs ->
      setSync sync d = Done d' ->
      history d0 h0 d' h cur fs
  | history_setMTU mtu d h cur fs d' :
      history d0 h0 d h cur fs ->
      _state d = STATE_FRAMESYNC ->
      0 <= mtu < 2 ^ 64 ->
      setMTU mtu d = Done d' ->
      history d0 h0 d' h cur fs
  | history_reactivate d h cur fs :
      history d0 h0 d h cur fs ->
      history d0 h0 (activate d) h cur fs.

(** A posted frame in heap [h]: its payload chunk holds the symbols recorded
    for it, converted to [int16_t], and has as many cells as the MTU. *)
Definition frame_ok (h : heap) (f : frame) : Prop :=
  exists l, payload f = Some l
    /\ h !! l = Some (map to_int16 (symbols f))
    /\ Z.of_nat (length (symbols f)) = frame_mtu f.

(** The output buffer of the frame in progress: a chunk of MTU cells
    allocated after the activation and not posted so far. *)
Definition buffer_ok (h0 h : heap) (fs : list frame) (d : demod) : Prop :=
  exists l cells, _outSymbols d = Some l
    /\ h !! l = Some cells
    /\ length cells = Z.to_nat (_mtu d)
    /\ (length h0 <= l)%nat
    /\ Forall (fun f => payload f <> Some l) fs.

(** The invariant of the runs from an activation on heap [h0]. *)
Definition history_inv (h0 : heap) (d : demod) (h : heap) (cur : list Z)
    (fs : list frame) : Prop :=
  0 <= _mtu d < 2 ^ 64
  /\ (length h0 <= length h)%nat
  /\ (forall l, (l < length h0)%nat -> h !! l = h0 !! l)
  /\ Forall (frame_ok h) fs
  /\ Forall (fun f => exists l, payload f = Some l /\ (length h0 <= l)%nat) fs
  /\ NoDup (map payload fs)
  /\ match _state d with
     | STATE_QUARTERCHIRP => buffer_ok h0 h fs d
     | STATE_DATASYMBOLS =>
         buffer_ok h0 h fs d
         /\ _symCount d = Z.of_nat (length cur)
         /\ take (length cur) (chunk_cells h (_outSymbols d))
            = map to_int16 cur
         /\ (Z.of_nat (length cur) < _mtu d \/ _mtu d = 0)
     | _ => True
     end.

(** A block as the constructor leaves it, for a spreading factor within the
    width of [int]: [N] positive, tables and detector window of [N]
    entries. *)
Definition well_formed (d : demod) : Prop :=
  0 < N d < 2 ^ 63
  /\ length (_detector d) = Z.to_nat (N d)
  /\ length (_upChirpTable d) = Z.to_nat (N d)
  /\ length (_downChirpTable d) = Z.to_nat (N d).

(** The members a step never assigns, and the size of the detector
    window. *)
Definition same_config (d d' : demod) : Prop :=
  N d' = N d /\ _upChirpTable d' = _upChirpTable d
  /\ _downChirpTable d' = _downChirpTable d
  /\ _sync d' = _sync d /\ _mtu d' = _mtu d
  /\ length (_detector d') = length (_detector d).

(** The symbol of a block of samples under a reference chirp: the block is
    dechirped sample by sample and handed to the detector. *)
Definition symbol_of (chirp block : list cplx) : Z :=
  detect (zip_with c_mul block chirp).

(** ** The chirp tables, entry by entry *)

(** The phase of step [i] of the chirp table loop. *)
Definition chirp_phase (N i : Z) : real :=
  r_div (r_mul (r_of_size_t (to_size_t (2 * to_size_t (i + N / 2)))) M_PI)
        (r_of_size_t N).

(** [phaseAccum] after [k] steps of the loop: the phases of the steps are
    added one after the other, from 0.0. *)
Fixpoint phase_sum (N : Z) (k : nat) : real :=
  match k with
  | O => r_zero
  | S j => r_add (phase_sum N j) (chirp_phase N (Z.of_nat j))
  end.

(** ** The debug stream of a step *)

(** The first two windows of the input, each dechirped with the reference
    chirp: what a step writes to the dec buffer. *)
Definition dechirped (d : demod) (inBuff : list cplx) : list cplx :=
  zip_with c_mul (take (Z.to_nat (N d)) inBuff) (chirp_table d)
  ++ zip_with c_mul (take (Z.to_nat (N d)) (drop (Z.to_nat (N d)) inBuff))
       (chirp_table d).

(** ** Buffer managers *)

(** What the block answers when asked for the buffer manager of a port: a
    manager of its own, of a kind and a buffer size in bytes, or the manager
    of the base class. *)
Inductive buffer_manager : Type :=
  | BaseManager
  | OwnManager (kind : string) (bufferSize : Z).

(** [sizeof(std::complex<float>)]. *)
Definition sizeof_sample : Z := 8.

Definition getOutputBufferManager (name : string) (d : demod) : buffer_manager :=
  if String.eqb name "raw" || String.eqb name "dec"
  then OwnManager "generic" (to_size_t (to_size_t (N d * 2) * sizeof_sample))
  else BaseManager.

Definition getInputBufferManager (name : string) (d : demod) : buffer_manager :=
  if String.eqb name "raw" || String.eqb name "dec"
  then OwnManager "circular" (to_size_t (to_size_t (N d * 2) * sizeof_sample))
  else BaseManager.

(** The elements a buffer of a manager holds. *)
Definition manager_elements (m : buffer_manager) : option Z :=
  match m with
  | BaseManager => None
  | OwnManager _ bufferSize => Some (bufferSize / sizeof_sample)
  end.

End Demod.

(** ** A tone model of the interfaces

    Samples are tone indices, the reference chirps are tone 0 and leave the
    samples as they are, and the detector reads the tone of the first sample
    of its window, modulo the length of the window.  The block runs on
    concrete streams in this model. *)
Module Tone.

Definition numerics : Numerics :=
  {| real := unit; cdouble := unit; cplx := Z;
     r_zero := tt; r_one := tt; M_PI := tt;
     r_of_size_t := fun _ => tt; r_add := fun _ _ => tt;
     r_mul := fun _ _ => tt; r_div := fun _ _ => tt;
     polar := fun _ _ => tt; conj := fun z => z; to_float := fun _ => 0;
     c_zero := 0; c_mul := fun samp _ => samp |}.

Definition detector : @LoRaDetector numerics :=
  @Build_LoRaDetector numerics
    (fun w : list Z => hd 0 w mod Z.of_nat (length w)).

Definition junk : indeterminate :=
  {| i_chirpTable := DownChirp; i_state := STATE_DATASYMBOLS;
     i_symCount := 7; i_prevValue := 0 |}.

(** A block of spreading factor 2: windows of 4 samples. *)
Definition block4 : @demod numerics := @LoRaDemod numerics 2 junk.

(** The block activated, with sync word [0x00] (symbols below 4 give the
    nibble 0) and an MTU of 2. *)
Definition tuned4 : @demod numerics :=
  set_mtu 2 (set_sync 0 (activate block4)).

(** A block of four samples of tone [x]: its symbol is [x mod 4]. *)
Definition tone (x : Z) : list (@cplx numerics) := replicate 4 x.

Definition garbage (k : nat) : Z := 99.

(** A frame: sync symbols 1 and 2, two down chirps, the quarter chirp, the
    data symbols 3 and 0, and the block after the frame. *)
Definition s0 : list (@cplx numerics) := tone 1.
Definition s1 : list (@cplx numerics) := tone 2.
Definition dc : list (@cplx numerics) := tone 3.
Definition qc : list (@cplx numerics) := [0].
Definition data : list (list (@cplx numerics)) := [tone 3; tone 0].
Definition tail : list (@cplx numerics) := tone 1.

Definition frame_stream : list (@cplx numerics) :=
  s0 ++ s1 ++ dc ++ dc ++ qc ++ concat data ++ tail.

(** The block and the heap in the middle of that frame, after the first
    data symbol: the output buffer in progress is chunk 0 and holds the
    symbol 3. *)
Definition midframe : @demod numerics * list (list Z) :=
  match @run numerics detector garbage 5 tuned4 [] frame_stream with
  | Done (d, h, _, _) => (d, h)
  | Fault _ => (tuned4, [])
  end.

(** A preamble block of symbol 0, then the frame. *)
Definition preamble_stream : list (@cplx numerics) := tone 0 ++ frame_stream.

End Tone.

(** * Verification *)

Section Proofs.

Context `{Det : LoRaDetector}.

Implicit Types (d : demod) (h : heap) (v : view) (e : effects).

(** ** Machine integers *)

Lemma to_size_t_small z : 0 <= z < 2 ^ 64 -> to_size_t z = z.
Proof. intros Hz. unfold to_size_t. apply Z.mod_small. exact Hz. Qed.

Lemma to_int16_small z : - 2 ^ 15 <= z < 2 ^ 15 -> to_int16 z = z.
Proof.
  intros Hz. unfold to_int16. rewrite Z.mod_small; lia.
Qed.

Lemma map_to_int16_small {A : Type} (f : A -> Z) (xs : list A) :
  Forall (fun x => - 2 ^ 15 <= f x < 2 ^ 15) xs ->
  map (fun x => to_int16 (f x)) xs = map f xs.
Proof.
  induction 1 as [|x xs Hx _ IH]; [reflexivity|].
  simpl. rewrite IH, to_int16_small by exact Hx. reflexivity.
Qed.

Lemma to_int_small z : - 2 ^ 31 <= z < 2 ^ 31 -> to_int z = z.
Proof.
  intros Hz. unfold to_int. rewrite Z.mod_small; lia.
Qed.

(** ** The guards of [work] *)

Lemma ready_true d v :
  ready d v = true <->
  to_size_t (N d * 2) <= Z.of_nat (length (in_buff v))
  /\ to_size_t (N d * 2) <= Z.of_nat (length (raw_buff v))
  /\ to_size_t (N d * 2) <= Z.of_nat (length (dec_buff v)).
Proof.
  unfold ready. rewrite !andb_true_iff, !negb_true_iff, !Z.ltb_ge. tauto.
Qed.

Lemma work_ready garbage d h v :
  ready d v = true ->
  work garbage d h v =
    (s ← switch garbage d h v (first_window d v) (detected d v);
     mret (finish (detected d v) s)).
Proof.
  intros Hr. apply ready_true in Hr as (Hi & Hr & Hd).
  unfold work.
  destruct (Z.ltb_spec (Z.of_nat (length (in_buff v))) (to_size_t (N d * 2)));
    [lia|].
  destruct (Z.ltb_spec (Z.of_nat (length (raw_buff v))) (to_size_t (N d * 2)));
    [lia|].
  destruct (Z.ltb_spec (Z.of_nat (length (dec_buff v))) (to_size_t (N d * 2)));
    [lia|].
  reflexivity.
Qed.

Lemma work_not_ready garbage d h v :
  ready d v = false ->
  exists e, work garbage d h v = Done (d, h, e)
    /\ consumed e = 0 /\ raw_produced e = [] /\ dec_produced e = []
    /\ labels e = [] /\ posted e = [].
Proof.
  unfold ready, work. intros Hr.
  destruct (Z.of_nat (length (in_buff v)) <? to_size_t (N d * 2)).
  { eexists. split; [reflexivity|]. simpl. tauto. }
  destruct (Z.of_nat (length (raw_buff v)) <? to_size_t (N d * 2)).
  { eexists. split; [reflexivity|]. simpl. tauto. }
  destruct (Z.of_nat (length (dec_buff v)) <? to_size_t (N d * 2)).
  { eexists. split; [reflexivity|]. simpl. tauto. }
  discriminate Hr.
Qed.

(** C8: a call of [work] with fewer than 2N unconsumed input samples, or
    with fewer than 2N elements of room in the raw or in the dec debug
    buffer, returns the block and the heap of symbol buffers as they were
    (so the state, the previous value, the symbol counter, the chirp
    reference and the output buffer are unchanged), consumes no input,
    produces nothing and posts neither a label nor a packet. *)
Theorem work_starved_is_noop garbage d h v :
  0 <= N d < 2 ^ 63 ->
  Z.of_nat (length (in_buff v)) < 2 * N d
  \/ Z.of_nat (length (raw_buff v)) < 2 * N d
  \/ Z.of_nat (length (dec_buff v)) < 2 * N d ->
  exists e, work garbage d h v = Done (d, h, e)
    /\ consumed e = 0 /\ raw_produced e = [] /\ dec_produced e = []
    /\ labels e = [] /\ posted e = [].
Proof.
  intros HN Hstarved. apply work_not_ready.
  destruct (ready d v) eqn:Hr; [|reflexivity].
  apply ready_true in Hr. rewrite to_size_t_small in Hr by lia. lia.
Qed.

Lemma work_inv garbage d h v d' h' e :
  work garbage d h v = Done (d', h', e) ->
  (ready d v = false /\ d' = d /\ h' = h /\ consumed e = 0 /\ posted e = [])
  \/ (ready d v = true /\ exists s,
        switch garbage d h v (first_window d v) (detected d v) = Done s
        /\ finish (detected d v) s = (d', h', e)).
Proof.
  intros Hw. destruct (ready d v) eqn:Hr.
  - right. split; [reflexivity|]. rewrite work_ready in Hw by exact Hr.
    destruct (switch garbage d h v (first_window d v) (detected d v))
      as [s|f] eqn:Hs; [|discriminate Hw].
    exists s. split; [reflexivity|]. injection Hw as <- <- <-. reflexivity.
  - left. destruct (work_not_ready garbage d h v Hr) as (e0 & He0 & Hc & _ & _ & _ & Hp).
    rewrite Hw in He0. injection He0 as -> -> ->. tauto.
Qed.

(** ** The frame-sync step *)

Lemma case_FRAMESYNC_full d h v :
  full_sync d v = true ->
  case_FRAMESYNC d h v (first_window d v) (detected d v) =
    {| sw_demod :=
         set_id "SYNC" (set_chirpTable DownChirp (set_state STATE_DOWNCHIRP0 d));
       sw_heap := h; sw_total := to_size_t (2 * N d);
       sw_buffers := second_window d v (first_window d v); sw_posted := [] |}.
Proof.
  unfold full_sync, detected1, case_FRAMESYNC.
  intros Hf. apply andb_true_iff in Hf as [Hsm H1].
  rewrite Hsm. simpl. rewrite H1. reflexivity.
Qed.

Lemma case_FRAMESYNC_search d h v :
  full_sync d v = false ->
  exists b,
    case_FRAMESYNC d h v (first_window d v) (detected d v) =
      {| sw_demod := set_id "X" d; sw_heap := h;
         sw_total := to_size_t (N d - detected d v);
         sw_buffers := b; sw_posted := [] |}.
Proof.
  unfold full_sync, detected1, case_FRAMESYNC. intros Hf.
  destruct (syncd_of (_prevValue d) && match0_of (detected d v) (_sync d)).
  - simpl in Hf. rewrite Hf. simpl. eexists. reflexivity.
  - simpl. eexists. reflexivity.
Qed.

(** C2: a step of [work] in state FRAMESYNC whose detected value lies in
    [0, N) consumes exactly 2N input samples when it achieves full sync, and
    otherwise exactly N - value samples, which is at least 1 and at most
    N. *)
Theorem framesync_consumption garbage d h v :
  _state d = STATE_FRAMESYNC ->
  ready d v = true ->
  N d < 2 ^ 63 ->
  0 <= detected d v < N d ->
  exists d' h' e, work garbage d h v = Done (d', h', e)
    /\ if full_sync d v then consumed e = 2 * N d
       else consumed e = N d - detected d v /\ 1 <= consumed e <= N d.
Proof.
  intros Hst Hr HN Hv. rewrite work_ready by exact Hr.
  unfold switch. rewrite Hst. simpl.
  destruct (full_sync d v) eqn:Hf.
  - rewrite case_FRAMESYNC_full by exact Hf.
    do 3 eexists. split; [reflexivity|]. simpl.
    apply to_size_t_small. lia.
  - destruct (case_FRAMESYNC_search d h v Hf) as [b ->].
    do 3 eexists. split; [reflexivity|]. simpl.
    rewrite to_size_t_small by lia. lia.
Qed.

Lemma syncd_of_spec p :
  syncd_of p = true <-> Z.quot (p + 1) 2 = 0.
Proof. unfold syncd_of. apply Z.eqb_eq. Qed.

(** [syncd] asks for a previous value of -2, -1 or 0. *)
Lemma syncd_of_near_zero p :
  syncd_of p = true <-> -2 <= p <= 0.
Proof.
  rewrite syncd_of_spec, Z.quot_small_iff by lia. lia.
Qed.

Lemma match0_of_spec value sync :
  0 <= value < 2 ^ 64 - 4 ->
  match0_of value sync = true <-> (value + 4) / 8 = sync / 16.
Proof.
  intros Hv. unfold match0_of.
  rewrite to_size_t_small by lia. rewrite Z.shiftr_div_pow2 by lia.
  apply Z.eqb_eq.
Qed.

Lemma match1_of_spec value1 sync :
  0 <= value1 < 2 ^ 64 - 4 ->
  match1_of value1 sync = true <-> (value1 + 4) / 8 = sync mod 16.
Proof.
  intros Hv. unfold match1_of.
  rewrite to_size_t_small by lia.
  change 15 with (Z.ones 4). rewrite Z.land_ones by lia.
  apply Z.eqb_eq.
Qed.

(** C3: in state FRAMESYNC, [syncd] holds iff (prevValue+1)/2 is 0 under
    the truncating division of C++, [match0] holds iff (value+4)/8 is the
    high nibble of the sync byte, [match1], evaluated on the symbol value1
    of the second window, holds iff (value1+4)/8 is the low nibble; the step
    moves to DOWNCHIRP0, switches the reference to the down-chirp table and
    posts the label "SYNC" exactly when the three hold, and otherwise stays
    in FRAMESYNC on the up-chirp table with the label "X". *)
Theorem framesync_decision garbage d h v :
  _state d = STATE_FRAMESYNC ->
  _chirpTable d = UpChirp ->
  ready d v = true ->
  0 <= detected d v < 2 ^ 64 - 4 ->
  0 <= detected1 d v < 2 ^ 64 - 4 ->
  let syncd := syncd_of (_prevValue d) in
  let match0 := match0_of (detected d v) (_sync d) in
  let match1 := match1_of (detected1 d v) (_sync d) in
  (syncd = true <-> Z.quot (_prevValue d + 1) 2 = 0)
  /\ (match0 = true <-> (detected d v + 4) / 8 = _sync d / 16)
  /\ (match1 = true <-> (detected1 d v + 4) / 8 = _sync d mod 16)
  /\ exists d' h' e, work garbage d h v = Done (d', h', e)
      /\ (_state d' = STATE_DOWNCHIRP0 <-> syncd && match0 && match1 = true)
      /\ (_chirpTable d' = DownChirp <-> syncd && match0 && match1 = true)
      /\ (labels e = ["SYNC"%string] <-> syncd && match0 && match1 = true)
      /\ (syncd && match0 && match1 = false ->
          _state d' = STATE_FRAMESYNC /\ _chirpTable d' = UpChirp
          /\ labels e = ["X"%string]).
Proof.
  intros Hst Hch Hr Hv Hv1 syncd match0 match1.
  split; [apply syncd_of_spec|].
  split; [apply match0_of_spec; exact Hv|].
  split; [apply match1_of_spec; exact Hv1|].
  rewrite work_ready by exact Hr. unfold switch. rewrite Hst. simpl.
  change (syncd && match0 && match1) with (full_sync d v).
  destruct (full_sync d v) eqn:Hf.
  - rewrite case_FRAMESYNC_full by exact Hf.
    do 3 eexists. split; [reflexivity|]. simpl. intuition congruence.
  - destruct (case_FRAMESYNC_search d h v Hf) as [b ->].
    do 3 eexists. split; [reflexivity|]. simpl. rewrite Hst, Hch.
    intuition congruence.
Qed.

(** ** The data-symbol step *)

Lemma case_DATASYMBOLS_inv d h b value s :
  case_DATASYMBOLS d h b value = Done s ->
  exists h',
    store_symbol h (_outSymbols d) (_symCount d) (to_int16 value) = Done h'
    /\ sw_heap s = h' /\ sw_total s = N d /\ sw_buffers s = b
    /\ if _mtu d <=? to_size_t (_symCount d + 1)
       then sw_demod s =
              set_id "S" (set_state STATE_FRAMESYNC
                (set_symCount (to_size_t (_symCount d + 1)) d))
            /\ sw_posted s = [_outSymbols d]
       else sw_demod s = set_id "S" (set_symCount (to_size_t (_symCount d + 1)) d)
            /\ sw_posted s = [].
Proof.
  unfold case_DATASYMBOLS.
  destruct (store_symbol h (_outSymbols d) (_symCount d) (to_int16 value))
    as [h'|f]; [|discriminate].
  intros Hs. exists h'. split; [reflexivity|].
  cbn in Hs.
  destruct (_mtu d <=? to_size_t (_symCount d + 1));
    injection Hs as <-; simpl; tauto.
Qed.

(** ** State and reference chirp *)

Lemma switch_chirp garbage d h v b value s :
  _chirpTable d = chirp_of_state (_state d) ->
  switch garbage d h v b value = Done s ->
  _chirpTable (sw_demod s) = chirp_of_state (_state (sw_demod s)).
Proof.
  intros Hc Hs. unfold switch in Hs.
  destruct (_state d) eqn:Hst; simpl in Hc.
  - injection Hs as <-. unfold case_FRAMESYNC.
    destruct (_ && _ && _); simpl; [reflexivity|]. rewrite Hst. exact Hc.
  - injection Hs as <-. simpl. exact Hc.
  - injection Hs as <-. reflexivity.
  - injection Hs as <-. simpl. exact Hc.
  - apply case_DATASYMBOLS_inv in Hs as (h' & _ & _ & _ & _ & Hs).
    destruct (_mtu d <=? to_size_t (_symCount d + 1));
      destruct Hs as [-> _]; simpl; [exact Hc|]. rewrite Hst. exact Hc.
Qed.

Lemma work_chirp garbage d h v d' h' e :
  _chirpTable d = chirp_of_state (_state d) ->
  work garbage d h v = Done (d', h', e) ->
  _chirpTable d' = chirp_of_state (_state d').
Proof.
  intros Hc Hw.
  apply work_inv in Hw as [(_ & -> & _)|(_ & s & Hs & Hf)]; [exact Hc|].
  injection Hf as <- _ _. simpl.
  eapply switch_chirp; [exact Hc|exact Hs].
Qed.

(** C9: in every state reachable from activation the reference chirp is
    the down-chirp table exactly when the state is DOWNCHIRP0 or DOWNCHIRP1
    and the up-chirp table in FRAMESYNC, QUARTERCHIRP and DATASYMBOLS:
    [activate] establishes the correspondence and every step of [work]
    preserves it, on any heap and ports. *)
Theorem chirp_follows_state :
  (forall d, _chirpTable (activate d) = chirp_of_state (_state (activate d)))
  /\ (forall garbage d h v d' h' e,
        _chirpTable d = chirp_of_state (_state d) ->
        work garbage d h v = Done (d', h', e) ->
        _chirpTable d' = chirp_of_state (_state d'))
  /\ (forall d, reachable d ->
        (_chirpTable d = DownChirp <->
           _state d = STATE_DOWNCHIRP0 \/ _state d = STATE_DOWNCHIRP1)
        /\ (_chirpTable d = UpChirp <->
             _state d = STATE_FRAMESYNC \/ _state d = STATE_QUARTERCHIRP
             \/ _state d = STATE_DATASYMBOLS)).
Proof.
  split; [reflexivity|]. split; [exact work_chirp|].
  intros d Hd.
  assert (_chirpTable d = chirp_of_state (_state d)) as Hc.
  { induction Hd as [d|g d h v d' h' e _ IH Hw|sync d d' _ IH Hs|mtu d d' _ IH Hs].
    - reflexivity.
    - eapply work_chirp; [exact IH|exact Hw].
    - injection Hs as <-. exact IH.
    - injection Hs as <-. exact IH. }
  rewrite Hc. destruct (_state d); simpl; intuition congruence.
Qed.

(** ** Configuration *)

(** C6, as the code has it: an MTU of zero is not rejected.  [setMTU]
    stores every MTU of type [size_t], zero included, and returns normally,
    leaving the rest of the block as it was.  For the spreading factors 0
    to 30 the constructor gives N = 2^sf, which is positive: none of them
    produces a non-positive N. *)
Theorem setMTU_stores_every_mtu sf junk mtu d :
  0 <= sf <= 30 ->
  0 <= mtu < 2 ^ 64 ->
  (N (LoRaDemod sf junk) = 2 ^ sf /\ 0 < N (LoRaDemod sf junk))
  /\ exists d', setMTU mtu d = Done d' /\ ~ rejects (setMTU mtu d)
       /\ _mtu d' = mtu
       /\ N d' = N d /\ _sync d' = _sync d /\ _state d' = _state d
       /\ _chirpTable d' = _chirpTable d /\ _symCount d' = _symCount d
       /\ _outSymbols d' = _outSymbols d /\ _prevValue d' = _prevValue d
       /\ _upChirpTable d' = _upChirpTable d
       /\ _downChirpTable d' = _downChirpTable d
       /\ _detector d' = _detector d.
Proof.
  intros Hsf Hmtu. split.
  - assert (0 < 2 ^ sf <= 2 ^ 30) as Hp.
    { split; [apply Z.pow_pos_nonneg; lia|].
      apply Z.pow_le_mono_r; lia. }
    assert (N (LoRaDemod sf junk) = 2 ^ sf) as ->.
    { simpl. rewrite Z.shiftl_1_l.
      rewrite to_int_small by lia. apply to_size_t_small. lia. }
    split; [reflexivity|lia].
  - exists (set_mtu mtu d). split; [reflexivity|].
    split; [intros Hr; exact Hr|]. simpl. tauto.
Qed.

(** ** The dechirp loop *)

Lemma symbol_loop_length n : forall i ofs inBuff chirp b,
  length (detBuff (symbol_loop n i ofs inBuff chirp b)) = length (detBuff b)
  /\ length (rawBuff (symbol_loop n i ofs inBuff chirp b)) = length (rawBuff b)
  /\ length (decBuff (symbol_loop n i ofs inBuff chirp b)) = length (decBuff b).
Proof.
  induction n as [|n IH]; intros i ofs inBuff chirp b; simpl; [tauto|].
  destruct (IH (S i) ofs inBuff chirp
    {| rawBuff := <[(i + ofs)%nat := at_index inBuff (i + ofs)]> (rawBuff b);
       decBuff := <[(i + ofs)%nat :=
                     c_mul (at_index inBuff (i + ofs)) (at_index chirp i)]>
                    (decBuff b);
       detBuff := feed i (c_mul (at_index inBuff (i + ofs)) (at_index chirp i))
                    (detBuff b) |}) as (-> & -> & ->).
  simpl. unfold feed. rewrite !length_insert. tauto.
Qed.

(** The window of the detector after the loop: the entries below [i] are as
    before, the [n] entries from [i] on are the dechirped samples. *)
Lemma symbol_loop_window n : forall i ofs inBuff chirp b,
  length (detBuff b) = (i + n)%nat ->
  (i + n <= length chirp)%nat ->
  (i + ofs + n <= length inBuff)%nat ->
  detBuff (symbol_loop n i ofs inBuff chirp b) =
    take i (detBuff b)
    ++ zip_with c_mul (take n (drop (i + ofs) inBuff)) (take n (drop i chirp)).
Proof.
  induction n as [|n IH]; intros i ofs inBuff chirp b Hdet Hchirp Hin; simpl.
  - rewrite app_nil_r, take_ge; [reflexivity|lia].
  - destruct (lookup_lt_is_Some_2 inBuff (i + ofs)) as [x Hx]; [lia|].
    destruct (lookup_lt_is_Some_2 chirp i) as [c Hc]; [lia|].
    rewrite IH; simpl; unfold feed.
    + rewrite (take_S_r _ i (c_mul x c)).
      2:{ unfold at_index. rewrite Hx, Hc. simpl.
          apply list_lookup_insert_eq. lia. }
      rewrite take_insert_ge by lia.
      rewrite <- (take_drop_middle inBuff (i + ofs) x Hx) at 2.
      rewrite <- (take_drop_middle chirp i c Hc) at 2.
      rewrite !drop_app_length'.
      2:{ rewrite length_take. apply lookup_lt_Some in Hc. lia. }
      2:{ rewrite length_take. apply lookup_lt_Some in Hx. lia. }
      simpl. rewrite <- app_assoc. reflexivity.
    + rewrite length_insert. lia.
    + lia.
    + lia.
Qed.

Lemma first_window_detBuff d v :
  well_formed d ->
  (Z.to_nat (N d) <= length (in_buff v))%nat ->
  detBuff (first_window d v) =
    zip_with c_mul (take (Z.to_nat (N d)) (in_buff v)) (chirp_table d).
Proof.
  intros (HN & Hdet & Hup & Hdown) Hin. unfold first_window.
  assert (length (chirp_table d) = Z.to_nat (N d)) as Hlen.
  { unfold chirp_table. destruct (_chirpTable d); assumption. }
  rewrite symbol_loop_window; simpl; try lia.
  rewrite (take_ge (chirp_table d)) by lia. reflexivity.
Qed.

Lemma second_window_detBuff d v b :
  well_formed d ->
  length (detBuff b) = Z.to_nat (N d) ->
  (2 * Z.to_nat (N d) <= length (in_buff v))%nat ->
  detBuff (second_window d v b) =
    zip_with c_mul (take (Z.to_nat (N d)) (drop (Z.to_nat (N d)) (in_buff v)))
      (chirp_table d).
Proof.
  intros (HN & Hdet & Hup & Hdown) Hb Hin. unfold second_window.
  assert (length (chirp_table d) = Z.to_nat (N d)) as Hlen.
  { unfold chirp_table. destruct (_chirpTable d); assumption. }
  rewrite symbol_loop_window; simpl; try lia.
  rewrite (take_ge (chirp_table d)) by lia. reflexivity.
Qed.

(** ** What a step leaves alone *)

Lemma same_config_well_formed d d' :
  same_config d d' -> well_formed d -> well_formed d'.
Proof.
  intros (HN & Hup & Hdown & _ & _ & Hdet) (H1 & H2 & H3 & H4).
  unfold well_formed. rewrite HN, Hup, Hdown, Hdet. tauto.
Qed.

Lemma switch_config garbage d h v value s :
  switch garbage d h v (first_window d v) value = Done s ->
  N (sw_demod s) = N d /\ _upChirpTable (sw_demod s) = _upChirpTable d
  /\ _downChirpTable (sw_demod s) = _downChirpTable d
  /\ _sync (sw_demod s) = _sync d /\ _mtu (sw_demod s) = _mtu d
  /\ length (detBuff (sw_buffers s)) = length (_detector d).
Proof.
  assert (length (detBuff (first_window d v)) = length (_detector d)) as Hlen.
  { unfold first_window.
    destruct (symbol_loop_length (Z.to_nat (N d)) 0 0 (in_buff v)
      (chirp_table d) {| rawBuff := raw_buff v; decBuff := dec_buff v;
                         detBuff := _detector d |}) as (-> & _).
    reflexivity. }
  assert (length (detBuff (second_window d v (first_window d v)))
          = length (_detector d)) as Hlen2.
  { unfold second_window.
    destruct (symbol_loop_length (Z.to_nat (N d)) 0 (Z.to_nat (N d)) (in_buff v)
      (chirp_table d) (first_window d v)) as (-> & _).
    exact Hlen. }
  unfold switch. intros Hs. destruct (_state d).
  - injection Hs as <-. unfold case_FRAMESYNC.
    destruct (syncd_of (_prevValue d) && match0_of value (_sync d)); simpl.
    + destruct (match1_of _ _); simpl; tauto.
    + tauto.
  - injection Hs as <-. simpl. tauto.
  - injection Hs as <-. simpl. tauto.
  - injection Hs as <-. simpl. tauto.
  - apply case_DATASYMBOLS_inv in Hs as (h' & _ & _ & _ & -> & Hs).
    destruct (_mtu d <=? to_size_t (_symCount d + 1));
      destruct Hs as [-> _]; simpl; tauto.
Qed.

Lemma work_config garbage d h v d' h' e :
  work garbage d h v = Done (d', h', e) -> same_config d d'.
Proof.
  intros Hw.
  apply work_inv in Hw as [(_ & -> & _)|(_ & s & Hs & Hf)].
  - unfold same_config. tauto.
  - injection Hf as <- _ _. apply switch_config in Hs. exact Hs.
Qed.

(** ** Steps on a stream *)

Lemma slab_length d :
  0 <= N d < 2 ^ 63 -> Z.of_nat (length (slab d)) = 2 * N d.
Proof.
  intros HN. unfold slab. rewrite length_replicate.
  rewrite to_size_t_small by lia. lia.
Qed.

Lemma ready_stream d input :
  0 <= N d < 2 ^ 63 ->
  2 * N d <= Z.of_nat (length input) ->
  ready d (stream_view d input) = true.
Proof.
  intros HN Hin. apply ready_true. simpl.
  rewrite slab_length by exact HN. rewrite to_size_t_small by lia. lia.
Qed.

Lemma detected_stream d block rest :
  well_formed d ->
  length block = Z.to_nat (N d) ->
  detected d (stream_view d (block ++ rest)) = symbol_of (chirp_table d) block.
Proof.
  intros Hwf Hb. unfold detected, symbol_of.
  rewrite first_window_detBuff; [|exact Hwf|simpl; rewrite length_app; lia].
  simpl. rewrite take_app_length' by (symmetry; exact Hb). reflexivity.
Qed.

Lemma detected1_stream d block0 block1 rest :
  well_formed d ->
  length block0 = Z.to_nat (N d) ->
  length block1 = Z.to_nat (N d) ->
  detected1 d (stream_view d (block0 ++ block1 ++ rest))
  = symbol_of (chirp_table d) block1.
Proof.
  intros Hwf Hb0 Hb1. unfold detected1, symbol_of.
  rewrite second_window_detBuff; [|exact Hwf| |].
  - simpl. rewrite drop_app_length' by (symmetry; exact Hb0).
    rewrite take_app_length' by (symmetry; exact Hb1). reflexivity.
  - unfold first_window.
    destruct (symbol_loop_length (Z.to_nat (N d)) 0 0
      (in_buff (stream_view d (block0 ++ block1 ++ rest))) (chirp_table d)
      {| rawBuff := raw_buff (stream_view d (block0 ++ block1 ++ rest));
         decBuff := dec_buff (stream_view d (block0 ++ block1 ++ rest));
         detBuff := _detector d |}) as (-> & _).
    simpl. apply Hwf.
  - simpl. rewrite !length_app. lia.
Qed.

(** ** One step in each state *)

Lemma step_sync garbage d h v :
  ready d v = true ->
  _state d = STATE_FRAMESYNC ->
  full_sync d v = true ->
  exists d' e, work garbage d h v = Done (d', h, e)
    /\ _state d' = STATE_DOWNCHIRP0 /\ _chirpTable d' = DownChirp
    /\ _outSymbols d' = _outSymbols d /\ _symCount d' = _symCount d
    /\ consumed e = to_size_t (2 * N d) /\ posted e = []
    /\ labels e = ["SYNC"%string].
Proof.
  intros Hr Hst Hf. rewrite work_ready by exact Hr.
  unfold switch. rewrite Hst. simpl.
  rewrite case_FRAMESYNC_full by exact Hf.
  do 2 eexists. split; [reflexivity|]. simpl. tauto.
Qed.

Lemma step_search garbage d h v :
  ready d v = true ->
  _state d = STATE_FRAMESYNC ->
  full_sync d v = false ->
  exists d' e, work garbage d h v = Done (d', h, e)
    /\ _state d' = STATE_FRAMESYNC /\ _chirpTable d' = _chirpTable d
    /\ _outSymbols d' = _outSymbols d /\ _symCount d' = _symCount d
    /\ consumed e = to_size_t (N d - detected d v) /\ posted e = []
    /\ labels e = ["X"%string].
Proof.
  intros Hr Hst Hf. rewrite work_ready by exact Hr.
  unfold switch. rewrite Hst. simpl.
  destruct (case_FRAMESYNC_search d h v Hf) as [b ->].
  do 2 eexists. split; [reflexivity|]. simpl. tauto.
Qed.

Lemma step_DOWNCHIRP0 garbage d h v :
  ready d v = true ->
  _state d = STATE_DOWNCHIRP0 ->
  exists d' e, work garbage d h v = Done (d', h, e)
    /\ _state d' = STATE_DOWNCHIRP1 /\ _chirpTable d' = _chirpTable d
    /\ _outSymbols d' = _outSymbols d /\ _symCount d' = _symCount d
    /\ consumed e = N d /\ posted e = [] /\ labels e = ["DC"%string].
Proof.
  intros Hr Hst. rewrite work_ready by exact Hr.
  unfold switch. rewrite Hst. simpl.
  do 2 eexists. split; [reflexivity|]. simpl. tauto.
Qed.

Lemma step_DOWNCHIRP1 garbage d h v :
  ready d v = true ->
  _state d = STATE_DOWNCHIRP1 ->
  exists d' e,
    work garbage d h v
    = Done (d', h ++ [map garbage (seq 0 (Z.to_nat (_mtu d)))], e)
    /\ _state d' = STATE_QUARTERCHIRP /\ _chirpTable d' = UpChirp
    /\ _outSymbols d' = Some (length h) /\ _symCount d' = _symCount d
    /\ consumed e = N d /\ posted e = [] /\ labels e = [].
Proof.
  intros Hr Hst. rewrite work_ready by exact Hr.
  unfold switch. rewrite Hst. simpl.
  do 2 eexists. split; [reflexivity|]. simpl. tauto.
Qed.

Lemma step_QUARTERCHIRP garbage d h v :
  ready d v = true ->
  _state d = STATE_QUARTERCHIRP ->
  exists d' e, work garbage d h v = Done (d', h, e)
    /\ _state d' = STATE_DATASYMBOLS /\ _chirpTable d' = _chirpTable d
    /\ _outSymbols d' = _outSymbols d /\ _symCount d' = 0
    /\ consumed e = N d / 4 /\ posted e = [] /\ labels e = ["QC"%string].
Proof.
  intros Hr Hst. rewrite work_ready by exact Hr.
  unfold switch. rewrite Hst. simpl.
  do 2 eexists. split; [reflexivity|]. simpl. tauto.
Qed.

Lemma step_DATASYMBOLS garbage d h v l cells :
  ready d v = true ->
  _state d = STATE_DATASYMBOLS ->
  _outSymbols d = Some l ->
  h !! l = Some cells ->
  0 <= _symCount d < Z.of_nat (length cells) ->
  _symCount d + 1 < 2 ^ 64 ->
  exists d' e,
    work garbage d h v
    = Done (d', <[l := <[Z.to_nat (_symCount d) := to_int16 (detected d v)]> cells]> h, e)
    /\ _state d' = (if _mtu d <=? _symCount d + 1
                    then STATE_FRAMESYNC else STATE_DATASYMBOLS)
    /\ _chirpTable d' = _chirpTable d
    /\ _outSymbols d' = Some l /\ _symCount d' = _symCount d + 1
    /\ consumed e = N d
    /\ posted e = (if _mtu d <=? _symCount d + 1 then [Some l] else [])
    /\ labels e = ["S"%string].
Proof.
  intros Hr Hst Hout Hl Hc Hc1. rewrite work_ready by exact Hr.
  unfold switch. rewrite Hst. unfold case_DATASYMBOLS, store_symbol.
  rewrite Hout. simpl. rewrite Hl. simpl.
  destruct (Z.ltb_spec (_symCount d) (Z.of_nat (length cells))); [|lia].
  cbn. rewrite to_size_t_small by lia.
  destruct (_mtu d <=? _symCount d + 1); cbn.
  - do 2 eexists. split; [reflexivity|]. simpl. rewrite Hout. tauto.
  - do 2 eexists. split; [reflexivity|]. simpl. rewrite Hout, Hst. tauto.
Qed.

Lemma step_DATASYMBOLS_overrun garbage d h v :
  ready d v = true ->
  _state d = STATE_DATASYMBOLS ->
  Z.of_nat (length (chunk_cells h (_outSymbols d))) <= _symCount d ->
  work garbage d h v
  = Fault (OutOfBounds (_symCount d)
             (Z.of_nat (length (chunk_cells h (_outSymbols d))))).
Proof.
  intros Hr Hst Hc. rewrite work_ready by exact Hr.
  unfold switch. rewrite Hst. unfold case_DATASYMBOLS, store_symbol.
  destruct (_outSymbols d) as [l|]; [|reflexivity].
  destruct (Z.ltb_spec (_symCount d)
    (Z.of_nat (length (chunk_cells h (Some l))))); [lia|reflexivity].
Qed.

(** ** Runs *)

Lemma result_bind_Done {A B : Type} (a : A) (k : A -> result B) :
  (Done a ≫= k) = k a.
Proof. reflexivity. Qed.

Lemma run_step garbage k d h input d1 h1 e :
  work garbage d h (stream_view d input) = Done (d1, h1, e) ->
  run garbage (S k) d h input =
    ('(d2, h2, rest, log) ←
       run garbage k d1 h1 (drop (Z.to_nat (consumed e)) input);
     mret (d2, h2, rest, (_state d1, e) :: log)).
Proof. intros Hw. simpl. rewrite Hw. reflexivity. Qed.

Lemma run_app garbage j : forall k d h input,
  run garbage (j + k) d h input =
    ('(d1, h1, rest1, log1) ← run garbage j d h input;
     '(d2, h2, rest2, log2) ← run garbage k d1 h1 rest1;
     mret (d2, h2, rest2, log1 ++ log2)).
Proof.
  induction j as [|j IH]; intros k d h input.
  - simpl. destruct (run garbage k d h input) as [[[[d2 h2] rest2] log2]|f];
      reflexivity.
  - simpl. destruct (work garbage d h (stream_view d input))
      as [[[d1 h1] e]|f]; [|reflexivity].
    cbn. rewrite IH.
    destruct (run garbage j d1 h1 (drop (Z.to_nat (consumed e)) input))
      as [[[[d2 h2] rest2] log2]|f]; [|reflexivity].
    cbn. destruct (run garbage k d2 h2 rest2)
      as [[[[d3 h3] rest3] log3]|f]; reflexivity.
Qed.

Lemma same_config_refl d : same_config d d.
Proof. unfold same_config. tauto. Qed.

Lemma same_config_trans d1 d2 d3 :
  same_config d1 d2 -> same_config d2 d3 -> same_config d1 d3.
Proof.
  unfold same_config.
  intros (H1 & H2 & H3 & H4 & H5 & H6) (K1 & K2 & K3 & K4 & K5 & K6).
  rewrite K1, K2, K3, K4, K5, K6. tauto.
Qed.

Lemma symbol_of_stream d block rest :
  well_formed d ->
  _chirpTable d = UpChirp ->
  length block = Z.to_nat (N d) ->
  detected d (stream_view d (block ++ rest)) = symbol_of (_upChirpTable d) block.
Proof.
  intros Hwf Hch Hb. rewrite detected_stream by assumption.
  unfold chirp_table. rewrite Hch. reflexivity.
Qed.

(** The four steps from the first sync symbol to the first data symbol:
    sync over two windows, two down-chirp windows, the quarter chirp. *)
Lemma run_preamble garbage d h s0 s1 dc0 dc1 qc rest :
  well_formed d ->
  _state d = STATE_FRAMESYNC ->
  _chirpTable d = UpChirp ->
  syncd_of (_prevValue d) = true ->
  length s0 = Z.to_nat (N d) ->
  length s1 = Z.to_nat (N d) ->
  match0_of (symbol_of (_upChirpTable d) s0) (_sync d) = true ->
  match1_of (symbol_of (_upChirpTable d) s1) (_sync d) = true ->
  length dc0 = Z.to_nat (N d) ->
  length dc1 = Z.to_nat (N d) ->
  length qc = Z.to_nat (N d / 4) ->
  (2 * Z.to_nat (N d) <= length rest)%nat ->
  exists d4 log,
    run garbage 4 d h (s0 ++ s1 ++ dc0 ++ dc1 ++ qc ++ rest)
    = Done (d4, h ++ [map garbage (seq 0 (Z.to_nat (_mtu d)))], rest, log)
    /\ same_config d d4
    /\ _state d4 = STATE_DATASYMBOLS /\ _chirpTable d4 = UpChirp
    /\ _outSymbols d4 = Some (length h) /\ _symCount d4 = 0
    /\ map fst log = [STATE_DOWNCHIRP0; STATE_DOWNCHIRP1;
                      STATE_QUARTERCHIRP; STATE_DATASYMBOLS]
    /\ packets log = [].
Proof.
  intros Hwf Hst Hch Hsyncd Hs0 Hs1 Hm0 Hm1 Hdc0 Hdc1 Hqc Hrest.
  pose proof Hwf as (HN & _).
  (* sync *)
  destruct (step_sync garbage d h
    (stream_view d (s0 ++ s1 ++ dc0 ++ dc1 ++ qc ++ rest)))
    as (d1 & e1 & Hw1 & Hst1 & Hch1 & _ & _ & Hc1 & Hp1 & _).
  { apply ready_stream; [lia|]. rewrite !length_app. lia. }
  { exact Hst. }
  { unfold full_sync. rewrite symbol_of_stream, detected1_stream by assumption.
    unfold chirp_table. rewrite Hch, Hsyncd, Hm0, Hm1. reflexivity. }
  pose proof (work_config _ _ _ _ _ _ _ Hw1) as Hcfg1.
  pose proof (same_config_well_formed _ _ Hcfg1 Hwf) as Hwf1.
  destruct Hcfg1 as (HN1 & Hup1 & Hdown1 & Hsync1 & Hmtu1 & Hdet1).
  rewrite (run_step _ _ _ _ _ _ _ _ Hw1). rewrite Hc1.
  rewrite to_size_t_small by lia.
  replace (drop (Z.to_nat (2 * N d)) (s0 ++ s1 ++ dc0 ++ dc1 ++ qc ++ rest))
    with (dc0 ++ dc1 ++ qc ++ rest).
  2:{ rewrite (app_assoc s0 s1). rewrite drop_app_length'; [reflexivity|].
      rewrite length_app. lia. }
  (* first down chirp *)
  destruct (step_DOWNCHIRP0 garbage d1 h
    (stream_view d1 (dc0 ++ dc1 ++ qc ++ rest)))
    as (d2 & e2 & Hw2 & Hst2 & Hch2 & _ & _ & Hc2 & Hp2 & _).
  { apply ready_stream; [lia|]. rewrite !length_app. lia. }
  { exact Hst1. }
  pose proof (work_config _ _ _ _ _ _ _ Hw2) as Hcfg2.
  pose proof (same_config_well_formed _ _ Hcfg2 Hwf1) as Hwf2.
  destruct Hcfg2 as (HN2 & Hup2 & Hdown2 & Hsync2 & Hmtu2 & Hdet2).
  rewrite (run_step _ _ _ _ _ _ _ _ Hw2). rewrite Hc2.
  rewrite drop_app_length' by lia.
  (* second down chirp *)
  destruct (step_DOWNCHIRP1 garbage d2 h (stream_view d2 (dc1 ++ qc ++ rest)))
    as (d3 & e3 & Hw3 & Hst3 & Hch3 & Hout3 & _ & Hc3 & Hp3 & _).
  { apply ready_stream; [lia|]. rewrite !length_app. lia. }
  { exact Hst2. }
  pose proof (work_config _ _ _ _ _ _ _ Hw3) as Hcfg3.
  pose proof (same_config_well_formed _ _ Hcfg3 Hwf2) as Hwf3.
  destruct Hcfg3 as (HN3 & Hup3 & Hdown3 & Hsync3 & Hmtu3 & Hdet3).
  rewrite (run_step _ _ _ _ _ _ _ _ Hw3). rewrite Hc3.
  rewrite drop_app_length' by lia.
  (* quarter chirp *)
  destruct (step_QUARTERCHIRP garbage d3
    (h ++ [map garbage (seq 0 (Z.to_nat (_mtu d2)))])
    (stream_view d3 (qc ++ rest)))
    as (d4 & e4 & Hw4 & Hst4 & Hch4 & Hout4 & Hsym4 & Hc4 & Hp4 & _).
  { apply ready_stream; [lia|]. rewrite !length_app. lia. }
  { exact Hst3. }
  pose proof (work_config _ _ _ _ _ _ _ Hw4) as Hcfg4.
  destruct Hcfg4 as (HN4 & Hup4 & Hdown4 & Hsync4 & Hmtu4 & Hdet4).
  rewrite (run_step _ _ _ _ _ _ _ _ Hw4). rewrite Hc4.
  rewrite drop_app_length' by (rewrite HN3, HN2, HN1; lia).
  simpl. exists d4. eexists. rewrite Hmtu2, Hmtu1.
  split; [reflexivity|].
  split.
  { unfold same_config. rewrite HN4, HN3, HN2, HN1, Hup4, Hup3, Hup2, Hup1,
      Hdown4, Hdown3, Hdown2, Hdown1, Hsync4, Hsync3, Hsync2, Hsync1,
      Hmtu4, Hmtu3, Hmtu2, Hmtu1, Hdet4, Hdet3, Hdet2, Hdet1. tauto. }
  unfold packets. simpl. rewrite Hst1, Hst2, Hst3, Hst4, Hp1, Hp2, Hp3, Hp4.
  rewrite Hch4, Hch3, Hout4, Hout3. tauto.
Qed.



(** ** A zero MTU *)

(** C10: with the MTU set to 0 by [setMTU] before a frame is synchronised,
    the frame drives the block to DATASYMBOLS with the symbol counter at 0
    and an output buffer of no cell, and the first data-symbol step writes at
    index 0 of that buffer of capacity 0: the write is out of bounds. *)
Theorem zero_mtu_overruns_buffer garbage d0 d h s0 s1 dc0 dc1 qc rest :
  well_formed d0 ->
  syncd_of (_prevValue d0) = true ->
  setMTU 0 (activate d0) = Done d ->
  length s0 = Z.to_nat (N d0) ->
  length s1 = Z.to_nat (N d0) ->
  match0_of (symbol_of (_upChirpTable d0) s0) (_sync d0) = true ->
  match1_of (symbol_of (_upChirpTable d0) s1) (_sync d0) = true ->
  length dc0 = Z.to_nat (N d0) ->
  length dc1 = Z.to_nat (N d0) ->
  length qc = Z.to_nat (N d0 / 4) ->
  (2 * Z.to_nat (N d0) <= length rest)%nat ->
  exists d4 h4 log,
    run garbage 4 d h (s0 ++ s1 ++ dc0 ++ dc1 ++ qc ++ rest)
    = Done (d4, h4, rest, log)
    /\ _state d4 = STATE_DATASYMBOLS /\ _symCount d4 = 0
    /\ chunk_cells h4 (_outSymbols d4) = []
    /\ work garbage d4 h4 (stream_view d4 rest) = Fault (OutOfBounds 0 0)
    /\ run garbage 5 d h (s0 ++ s1 ++ dc0 ++ dc1 ++ qc ++ rest)
       = Fault (OutOfBounds 0 0).
Proof.
  intros Hwf Hsyncd Hset Hs0 Hs1 Hm0 Hm1 Hdc0 Hdc1 Hqc Hrest.
  injection Hset as <-.
  destruct (run_preamble garbage (set_mtu 0 (activate d0)) h
    s0 s1 dc0 dc1 qc rest)
    as (d4 & log & Hrun & Hcfg & Hst4 & Hch4 & Hout4 & Hsym4 & _ & _);
    try assumption; try reflexivity.
  pose proof (same_config_well_formed _ _ Hcfg Hwf) as Hwf4.
  pose proof Hwf4 as (HN4 & _). destruct Hcfg as (HN & _).
  simpl in HN.
  change (map garbage (seq 0 (Z.to_nat (_mtu (set_mtu 0 (activate d0))))))
    with (@nil Z) in Hrun.
  assert (chunk_cells (h ++ [[]]) (_outSymbols d4) = []) as Hcells.
  { rewrite Hout4. simpl. rewrite list_lookup_middle by reflexivity.
    reflexivity. }
  assert (work garbage d4 (h ++ [[]]) (stream_view d4 rest)
          = Fault (OutOfBounds 0 0)) as Hfault.
  { rewrite step_DATASYMBOLS_overrun.
    - rewrite Hcells, Hsym4. reflexivity.
    - apply ready_stream; lia.
    - exact Hst4.
    - rewrite Hcells, Hsym4. simpl. lia. }
  exists d4, (h ++ [[]]), log.
  split; [exact Hrun|]. split; [exact Hst4|]. split; [exact Hsym4|].
  split; [exact Hcells|]. split; [exact Hfault|].
  change 5%nat with (4 + 1)%nat. rewrite run_app, Hrun. cbn.
  rewrite Hfault. reflexivity.
Qed.

(** ** A full frame *)


(** ** The frames of a run *)

Lemma frame_ok_alloc h cells fs :
  Forall (frame_ok h) fs -> Forall (frame_ok (h ++ [cells])) fs.
Proof.
  intros Hok. eapply Forall_impl; [exact Hok|].
  intros f (l & Hp & Hl & Hn).
  exists l. split; [exact Hp|]. split; [|exact Hn].
  apply lookup_app_l_Some. exact Hl.
Qed.

Lemma frame_ok_store h l cells fs :
  Forall (fun f => payload f <> Some l) fs ->
  Forall (frame_ok h) fs -> Forall (frame_ok (<[l := cells]> h)) fs.
Proof.
  intros Hne Hok. induction Hok as [|f fs (l' & Hp & Hl & Hn) _ IH].
  - constructor.
  - apply Forall_cons in Hne as [Hf Hne]. constructor; [|apply IH; exact Hne].
    exists l'. split; [exact Hp|]. split; [|exact Hn].
    rewrite list_lookup_insert_ne; [exact Hl|]. congruence.
Qed.

Lemma frame_ok_bound h fs :
  Forall (frame_ok h) fs ->
  Forall (fun f => payload f <> Some (length h)) fs.
Proof.
  intros Hok. eapply Forall_impl; [exact Hok|].
  intros f (l & Hp & Hl & _) Heq.
  rewrite Hp in Heq. injection Heq as ->.
  apply lookup_lt_Some in Hl. lia.
Qed.

Lemma NoDup_payload_snoc fs f l :
  payload f = Some l ->
  Forall (fun g => payload g <> Some l) fs ->
  NoDup (map payload fs) -> NoDup (map payload (fs ++ [f])).
Proof.
  intros Hp Hne Hnd. rewrite map_app. apply NoDup_app.
  split; [exact Hnd|]. split.
  - intros x Hx Hx'. apply list_elem_of_singleton in Hx'. subst x.
    apply list_elem_of_In, in_map_iff in Hx as (g & Hg & Hin).
    rewrite Forall_forall in Hne. apply (Hne g).
    + apply list_elem_of_In. exact Hin.
    + rewrite Hg, Hp. reflexivity.
  - simpl. apply NoDup_singleton.
Qed.

Lemma collect_idle d v cur :
  ready d v = true ->
  _state d <> STATE_QUARTERCHIRP ->
  _state d <> STATE_DATASYMBOLS ->
  collect d v cur = cur.
Proof.
  intros Hr Hq Hd. unfold collect. rewrite Hr.
  destruct (_state d); congruence.
Qed.

Lemma record_frames_none d v cur e :
  posted e = [] -> record_frames d v cur e = [].
Proof. intros Hp. unfold record_frames. rewrite Hp. reflexivity. Qed.

(** A step that neither allocates nor stores keeps the invariant, whatever
    state other than QUARTERCHIRP and DATASYMBOLS it leads to. *)
Lemma history_inv_idle h0 d h cur fs d' :
  history_inv h0 d h cur fs ->
  _mtu d' = _mtu d ->
  _state d' <> STATE_QUARTERCHIRP ->
  _state d' <> STATE_DATASYMBOLS ->
  history_inv h0 d' h cur fs.
Proof.
  intros (Hmtu & Hgrow & Hold & Hok & Hfresh & Hnd & _) Hm Hq Hd.
  unfold history_inv. rewrite Hm.
  repeat (split; [assumption|]).
  destruct (_state d') eqn:Hst; try exact I; congruence.
Qed.

Lemma work_history_inv h0 garbage d h v cur fs d' h' e :
  history_inv h0 d h cur fs ->
  work garbage d h v = Done (d', h', e) ->
  history_inv h0 d' h' (collect d v cur) (fs ++ record_frames d v cur e).
Proof.
  intros Hinv Hw.
  pose proof (work_config _ _ _ _ _ _ _ Hw) as (_ & _ & _ & _ & Hmtu' & _).
  destruct (ready d v) eqn:Hr.
  2:{ destruct (work_not_ready garbage d h v Hr)
        as (e0 & He0 & _ & _ & _ & _ & Hp).
      rewrite He0 in Hw. injection Hw as <- <- <-.
      rewrite record_frames_none, app_nil_r by exact Hp.
      unfold collect. rewrite Hr. exact Hinv. }
  destruct (_state d) eqn:Hst.
  - (* FRAMESYNC *)
    destruct (full_sync d v) eqn:Hf.
    + destruct (step_sync garbage d h v Hr Hst Hf)
        as (d1 & e1 & Hw1 & Hst1 & _ & _ & _ & _ & Hp1 & _).
      rewrite Hw1 in Hw. injection Hw as <- <- <-.
      rewrite record_frames_none, app_nil_r by exact Hp1.
      rewrite collect_idle by (rewrite ?Hst; congruence).
      apply (history_inv_idle h0 d); [exact Hinv|exact Hmtu'| |];
        rewrite Hst1; discriminate.
    + destruct (step_search garbage d h v Hr Hst Hf)
        as (d1 & e1 & Hw1 & Hst1 & _ & _ & _ & _ & Hp1 & _).
      rewrite Hw1 in Hw. injection Hw as <- <- <-.
      rewrite record_frames_none, app_nil_r by exact Hp1.
      rewrite collect_idle by (rewrite ?Hst; congruence).
      apply (history_inv_idle h0 d); [exact Hinv|exact Hmtu'| |];
        rewrite Hst1; discriminate.
  - (* DOWNCHIRP0 *)
    destruct (step_DOWNCHIRP0 garbage d h v Hr Hst)
      as (d1 & e1 & Hw1 & Hst1 & _ & _ & _ & _ & Hp1 & _).
    rewrite Hw1 in Hw. injection Hw as <- <- <-.
    rewrite record_frames_none, app_nil_r by exact Hp1.
    rewrite collect_idle by (rewrite ?Hst; congruence).
    apply (history_inv_idle h0 d); [exact Hinv|exact Hmtu'| |];
      rewrite Hst1; discriminate.
  - (* DOWNCHIRP1: the output buffer is allocated *)
    destruct (step_DOWNCHIRP1 garbage d h v Hr Hst)
      as (d1 & e1 & Hw1 & Hst1 & _ & Hout1 & _ & _ & Hp1 & _).
    rewrite Hw1 in Hw. injection Hw as <- <- <-.
    rewrite record_frames_none, app_nil_r by exact Hp1.
    rewrite collect_idle by (rewrite ?Hst; congruence).
    destruct Hinv as (Hmtu & Hgrow & Hold & Hok & Hfresh & Hnd & _).
    unfold history_inv. rewrite Hmtu', Hst1.
    split; [exact Hmtu|]. split; [rewrite length_app; lia|].
    split; [intros l Hl; rewrite lookup_app_l by lia; apply Hold; exact Hl|].
    split; [apply frame_ok_alloc; exact Hok|].
    split; [exact Hfresh|]. split; [exact Hnd|].
    exists (length h), (map garbage (seq 0 (Z.to_nat (_mtu d)))).
    split; [exact Hout1|].
    split; [apply list_lookup_middle; reflexivity|].
    split; [rewrite length_map, length_seq, Hmtu'; reflexivity|].
    split; [exact Hgrow|]. apply frame_ok_bound. exact Hok.
  - (* QUARTERCHIRP: the symbol counter is reset *)
    destruct (step_QUARTERCHIRP garbage d h v Hr Hst)
      as (d1 & e1 & Hw1 & Hst1 & _ & Hout1 & Hsym1 & _ & Hp1 & _).
    rewrite Hw1 in Hw. injection Hw as <- <- <-.
    rewrite record_frames_none, app_nil_r by exact Hp1.
    unfold collect. rewrite Hr, Hst.
    destruct Hinv as (Hmtu & Hgrow & Hold & Hok & Hfresh & Hnd & Hbuf).
    rewrite Hst in Hbuf.
    unfold history_inv. rewrite Hmtu', Hst1.
    repeat (split; [assumption|]).
    split.
    { destruct Hbuf as (l & cells & Hbuf). exists l, cells.
      rewrite Hout1, Hmtu'. exact Hbuf. }
    split; [exact Hsym1|]. split; [reflexivity|]. simpl. lia.
  - (* DATASYMBOLS: a symbol is stored *)
    destruct Hinv as (Hmtu & Hgrow & Hold & Hok & Hfresh & Hnd & Hbuf).
    rewrite Hst in Hbuf.
    destruct Hbuf as ((l & cells & Hout & Hl & Hlen & Hl0 & Hne)
                      & Hsym & Htake & Hroom).
    rewrite Hout in Htake. simpl in Htake. rewrite Hl in Htake.
    simpl in Htake.
    destruct Hroom as [Hroom|Hzero].
    2:{ rewrite step_DATASYMBOLS_overrun in Hw; [discriminate|exact Hr|exact Hst|].
        rewrite Hout. simpl. rewrite Hl. simpl. lia. }
    destruct (step_DATASYMBOLS garbage d h v l cells Hr Hst Hout Hl)
      as (d1 & e1 & Hw1 & Hst1 & _ & Hout1 & Hsym1 & _ & Hp1 & _); [lia|lia|].
    rewrite Hw1 in Hw. injection Hw as <- <- <-.
    unfold collect. rewrite Hr, Hst. unfold record_frames, collect.
    rewrite Hr, Hst.
    generalize dependent (detected d v). intros x Hw1.
    assert (<[Z.to_nat (_symCount d) := to_int16 x]> cells !! length cur
            = Some (to_int16 x)) as Hx.
    { rewrite Hsym, Nat2Z.id. apply list_lookup_insert_eq. lia. }
    assert (take (S (length cur))
              (<[Z.to_nat (_symCount d) := to_int16 x]> cells)
            = map to_int16 (cur ++ [x])) as Htake1.
    { rewrite (take_S_r _ _ _ Hx), take_insert_ge by lia.
      rewrite Htake, map_app. reflexivity. }
    assert (h !! l = Some cells -> (l < length h)%nat) as Hbound.
    { apply lookup_lt_Some. }
    unfold history_inv. rewrite Hmtu', Hst1.
    split; [exact Hmtu|]. split; [rewrite length_insert; exact Hgrow|].
    split.
    { intros l' Hl'. rewrite list_lookup_insert_ne by lia.
      apply Hold. exact Hl'. }
    destruct (Z.leb_spec (_mtu d) (_symCount d + 1)) as [Hfull|Hmore].
    + (* the buffer is full: the frame is posted *)
      rewrite Hp1. simpl.
      split.
      { apply Forall_app. split; [apply frame_ok_store; assumption|].
        constructor; [|constructor].
        exists l. simpl. split; [reflexivity|]. split.
        - rewrite list_lookup_insert_eq by (apply Hbound; exact Hl).
          rewrite <- Htake1, take_ge; [reflexivity|].
          rewrite length_insert. lia.
        - rewrite length_app. simpl. lia. }
      split.
      { apply Forall_app. split; [exact Hfresh|].
        constructor; [|constructor]. exists l. simpl. tauto. }
      split; [apply (NoDup_payload_snoc fs _ l); [reflexivity|exact Hne|exact Hnd]|].
      exact I.
    + (* more symbols to come *)
      rewrite Hp1. simpl. rewrite app_nil_r.
      split; [apply frame_ok_store; assumption|].
      split; [exact Hfresh|]. split; [exact Hnd|].
      split.
      { exists l, (<[Z.to_nat (_symCount d) := to_int16 x]> cells).
        split; [exact Hout1|].
        split; [apply list_lookup_insert_eq; apply Hbound; exact Hl|].
        split; [rewrite length_insert, Hmtu'; exact Hlen|].
        split; [exact Hl0|exact Hne]. }
      split; [rewrite Hsym1, length_app; simpl; lia|].
      split.
      { rewrite Hout1. simpl.
        rewrite list_lookup_insert_eq by (apply Hbound; exact Hl). simpl.
        rewrite length_app. simpl. rewrite Nat.add_1_r. exact Htake1. }
      left. rewrite length_app. simpl. lia.
Qed.

Lemma history_invariant d0 h0 d h cur fs :
  0 <= _mtu d0 < 2 ^ 64 ->
  history d0 h0 d h cur fs ->
  history_inv h0 d h cur fs.
Proof.
  intros Hmtu Hh.
  induction Hh as [|g v d h cur fs d' h' e _ IH Hw
                   |sync d h cur fs d' _ IH Hs
                   |mtu d h cur fs d' _ IH Hst Hm Hs
                   |d h cur fs _ IH].
  - unfold history_inv. simpl. repeat split; try lia; constructor.
  - eapply work_history_inv; [exact IH|exact Hw].
  - injection Hs as <-.
    destruct IH as (H1 & H2 & H3 & H4 & H5 & H6 & H7).
    unfold history_inv. simpl. repeat (split; [assumption|]). exact H7.
  - injection Hs as <-.
    destruct IH as (H1 & H2 & H3 & H4 & H5 & H6 & H7).
    unfold history_inv. simpl. rewrite Hst.
    repeat (split; [assumption|]). exact I.
  - apply (history_inv_idle h0 d); [exact IH|reflexivity| |]; discriminate.
Qed.

Lemma detected_range d v :
  well_formed d ->
  (forall w, length w = Z.to_nat (N d) -> 0 <= peak_bin w < N d) ->
  0 <= detected d v < N d.
Proof.
  intros (_ & Hdet & _) Hrange. unfold detected, detect. apply Hrange.
  unfold first_window.
  destruct (symbol_loop_length (Z.to_nat (N d)) 0 0 (in_buff v) (chirp_table d)
    {| rawBuff := raw_buff v; decBuff := dec_buff v; detBuff := _detector d |})
    as (-> & _).
  exact Hdet.
Qed.

(** The symbols a run records are values of the detector. *)
Lemma history_symbols_range d0 h0 d h cur fs :
  well_formed d0 ->
  (forall w, length w = Z.to_nat (N d0) -> 0 <= peak_bin w < N d0) ->
  history d0 h0 d h cur fs ->
  well_formed d /\ N d = N d0
  /\ Forall (fun x => 0 <= x < N d0) cur
  /\ Forall (fun f => Forall (fun x => 0 <= x < N d0) (symbols f)) fs.
Proof.
  intros Hwf Hrange Hh.
  induction Hh as [|g v d h cur fs d' h' e _ IH Hw
                   |sync d h cur fs d' _ IH Hs
                   |mtu d h cur fs d' _ IH Hst Hm Hs
                   |d h cur fs _ IH].
  - split; [exact Hwf|]. split; [reflexivity|]. split; constructor.
  - destruct IH as (Hwfd & HN & Hcur & Hfs).
    pose proof (work_config _ _ _ _ _ _ _ Hw) as Hcfg.
    split; [eapply same_config_well_formed; eassumption|].
    split; [destruct Hcfg as (-> & _); exact HN|].
    assert (Forall (fun x => 0 <= x < N d0) (collect d v cur)) as Hcollect.
    { unfold collect. destruct (ready d v); [|exact Hcur].
      destruct (_state d); try exact Hcur; [constructor|].
      apply Forall_app. split; [exact Hcur|]. constructor; [|constructor].
      rewrite <- HN. apply detected_range; [exact Hwfd|].
      rewrite HN. exact Hrange. }
    split; [exact Hcollect|].
    apply Forall_app. split; [exact Hfs|].
    unfold record_frames. induction (posted e) as [|c cs IHc]; simpl;
      constructor; [exact Hcollect|exact IHc].
  - injection Hs as <-. exact IH.
  - injection Hs as <-. exact IH.
  - exact IH.
Qed.

(** C5: every frame a run posts, from an activation on, is a chunk of its
    own that holds exactly MTU cells, each an unsigned 16-bit value, and cell
    k is the symbol detected by the k-th data-symbol step of the frame.  The
    cells are [int16_t]: the symbols are below 2^15 for N up to 2^15. *)
Theorem emitted_frames d0 h0 d h cur fs :
  well_formed d0 ->
  N d0 <= 2 ^ 15 ->
  0 <= _mtu d0 < 2 ^ 64 ->
  (forall w, length w = Z.to_nat (N d0) -> 0 <= peak_bin w < N d0) ->
  history d0 h0 d h cur fs ->
  NoDup (map payload fs)
  /\ Forall (fun f => exists l, payload f = Some l
        /\ h !! l = Some (symbols f)
        /\ Z.of_nat (length (symbols f)) = frame_mtu f
        /\ Forall (fun x => 0 <= x < 2 ^ 16) (symbols f)) fs.
Proof.
  intros Hwf HN Hmtu Hrange Hh.
  destruct (history_invariant _ _ _ _ _ _ Hmtu Hh)
    as (_ & _ & _ & Hok & _ & Hnd & _).
  destruct (history_symbols_range _ _ _ _ _ _ Hwf Hrange Hh)
    as (_ & _ & _ & Hsym).
  split; [exact Hnd|].
  rewrite Forall_forall in Hok, Hsym. apply Forall_forall. intros f Hf.
  destruct (Hok f Hf) as (l & Hp & Hl & Hn). specialize (Hsym f Hf).
  exists l. split; [exact Hp|].
  split.
  { rewrite Hl. f_equal.
    transitivity (map (fun x : Z => x) (symbols f)); [|apply map_id].
    apply (map_to_int16_small (fun x => x) (symbols f)).
    eapply Forall_impl; [exact Hsym|]. simpl. intros x Hx. lia. }
  split; [exact Hn|].
  eapply Forall_impl; [exact Hsym|]. simpl. intros x Hx. lia.
Qed.

(** C7: [activate] resets the state to FRAMESYNC, and the output buffer in
    progress is out of every frame posted afterwards: the chunks of the heap
    at activation are never written again, and every frame posted afterwards
    is a chunk allocated after the activation whose cells are the symbols
    detected since. *)
Theorem reactivation_discards_buffer d0 h0 d h cur fs :
  0 <= _mtu d0 < 2 ^ 64 ->
  history d0 h0 d h cur fs ->
  _state (activate d0) = STATE_FRAMESYNC
  /\ (forall l, (l < length h0)%nat -> h !! l = h0 !! l)
  /\ Forall (fun f => exists l, payload f = Some l
        /\ (length h0 <= l)%nat
        /\ (forall l0, _outSymbols d0 = Some l0 -> (l0 < length h0)%nat ->
              l <> l0)
        /\ h !! l = Some (map to_int16 (symbols f))) fs.
Proof.
  intros Hmtu Hh.
  destruct (history_invariant _ _ _ _ _ _ Hmtu Hh)
    as (_ & _ & Hold & Hok & Hfresh & _ & _).
  split; [reflexivity|]. split; [exact Hold|].
  rewrite Forall_forall in Hok, Hfresh. apply Forall_forall. intros f Hf.
  destruct (Hok f Hf) as (l & Hp & Hl & _).
  destruct (Hfresh f Hf) as (l' & Hp' & Hl').
  rewrite Hp in Hp'. injection Hp' as <-.
  exists l. split; [exact Hp|]. split; [exact Hl'|].
  split; [intros l0 _ Hl0; lia|exact Hl].
Qed.

(** Every run on a stream is a run of the history relation, and the frames
    of the history are the packets of the run. *)
Lemma run_history garbage d0 h0 k : forall d h input cur fs d' h' rest log,
  history d0 h0 d h cur fs ->
  run garbage k d h input = Done (d', h', rest, log) ->
  exists cur' fs',
    history d0 h0 d' h' cur' fs'
    /\ map payload fs' = map payload fs ++ packets log.
Proof.
  induction k as [|k IH]; intros d h input cur fs d' h' rest log Hh Hrun.
  - injection Hrun as <- <- _ <-. exists cur, fs.
    split; [exact Hh|]. unfold packets. simpl. rewrite app_nil_r. reflexivity.
  - simpl in Hrun.
    destruct (work garbage d h (stream_view d input)) as [[[d1 h1] e]|f] eqn:Hw;
      [|discriminate Hrun].
    rewrite result_bind_Done in Hrun.
    destruct (run garbage k d1 h1 (drop (Z.to_nat (consumed e)) input))
      as [[[[d2 h2] rest2] log2]|f] eqn:Hrun2; [|discriminate Hrun].
    injection Hrun as <- <- <- <-.
    destruct (IH _ _ _ _ _ _ _ _ _ (history_work _ _ _ _ _ _ _ _ _ _ _ Hh Hw) Hrun2)
      as (cur' & fs' & Hh' & Hp).
    exists cur', fs'. split; [exact Hh'|].
    rewrite Hp, map_app, <- app_assoc. f_equal.
    unfold packets, record_frames. simpl. f_equal.
    rewrite map_map. simpl. apply map_id.
Qed.

(** ** Constructed blocks are well formed *)

Lemma chirp_loop_length n : forall i N phaseAccum tables,
  length (chirp_loop n i N phaseAccum tables).1 = (length tables.1 + n)%nat
  /\ length (chirp_loop n i N phaseAccum tables).2 = (length tables.2 + n)%nat.
Proof.
  induction n as [|n IH]; intros i N0 phaseAccum tables; simpl.
  - lia.
  - match goal with
    | |- context [chirp_loop n ?i' N0 ?acc ?t] =>
        destruct (IH i' N0 acc t) as [-> ->]
    end.
    simpl. rewrite !length_app. simpl. lia.
Qed.

Lemma LoRaDemod_well_formed sf junk :
  0 <= sf <= 30 -> well_formed (LoRaDemod sf junk).
Proof.
  intros Hsf.
  assert (to_size_t (to_int (Z.shiftl 1 sf)) = 2 ^ sf) as HN.
  { rewrite Z.shiftl_1_l.
    assert (0 < 2 ^ sf <= 2 ^ 30) as Hp.
    { split; [apply Z.pow_pos_nonneg; lia|].
      apply Z.pow_le_mono_r; lia. }
    rewrite to_int_small by lia. apply to_size_t_small. lia. }
  assert (0 < 2 ^ sf <= 2 ^ 30) as Hp.
  { split; [apply Z.pow_pos_nonneg; lia|]. apply Z.pow_le_mono_r; lia. }
  unfold well_formed, LoRaDemod. simpl. rewrite HN.
  split; [lia|].
  split; [unfold new_detector; apply length_replicate|].
  destruct (chirp_loop_length (Z.to_nat (2 ^ sf)) 0 (2 ^ sf) r_zero ([], []))
    as [-> ->].
  simpl. tauto.
Qed.

(** * Further properties of the block *)

(** ** The chirp tables *)

Lemma chirp_loop_entries n : forall k N0 tables,
  chirp_loop n (Z.of_nat k) N0 (phase_sum N0 k) tables
  = (tables.1
       ++ map (fun j => to_float (conj (polar r_one (phase_sum N0 (S j)))))
            (seq k n),
     tables.2
       ++ map (fun j => to_float (polar r_one (phase_sum N0 (S j)))) (seq k n)).
Proof.
  induction n as [|n IH]; intros k N0 tables.
  - simpl. rewrite !app_nil_r. destruct tables; reflexivity.
  - change (chirp_loop (S n) (Z.of_nat k) N0 (phase_sum N0 k) tables)
      with (chirp_loop n (Z.of_nat k + 1) N0 (phase_sum N0 (S k))
              (tables.1 ++ [to_float (conj (polar r_one (phase_sum N0 (S k))))],
               tables.2 ++ [to_float (polar r_one (phase_sum N0 (S k)))])).
    replace (Z.of_nat k + 1) with (Z.of_nat (S k)) by lia.
    rewrite IH. simpl. rewrite <- !app_assoc. reflexivity.
Qed.

Lemma lookup_map_seq {A : Type} (f : nat -> A) (n i : nat) :
  (i < n)%nat -> map f (seq 0 n) !! i = Some (f i).
Proof.
  intros Hi. change (map f (seq 0 n)) with (f <$> seq 0 n).
  rewrite list_lookup_fmap, lookup_seq_lt by exact Hi. reflexivity.
Qed.

(** The tables the constructor builds, entry by entry: entry [i] of the
    down-chirp table is the unit-modulus number of the phase accumulated
    over the steps 0..i, rounded to [float], and entry [i] of the up-chirp
    table is its conjugate, rounded. *)
Theorem chirp_tables_are_conjugate_entries sf junk (i : nat) :
  0 <= sf <= 30 ->
  Z.of_nat i < 2 ^ sf ->
  let d := LoRaDemod sf junk in
  let entry := polar r_one (phase_sum (N d) (S i)) in
  _downChirpTable d !! i = Some (to_float entry)
  /\ _upChirpTable d !! i = Some (to_float (conj entry)).
Proof.
  intros Hsf Hi d entry.
  assert (N d = 2 ^ sf) as HN.
  { unfold d. simpl. rewrite Z.shiftl_1_l.
    assert (0 < 2 ^ sf <= 2 ^ 30) as Hp.
    { split; [apply Z.pow_pos_nonneg; lia|]. apply Z.pow_le_mono_r; lia. }
    rewrite to_int_small by lia. apply to_size_t_small. lia. }
  assert (_upChirpTable d
          = map (fun j => to_float (conj (polar r_one (phase_sum (N d) (S j)))))
              (seq 0 (Z.to_nat (N d)))
          /\ _downChirpTable d
             = map (fun j => to_float (polar r_one (phase_sum (N d) (S j))))
                 (seq 0 (Z.to_nat (N d)))) as [Hup Hdown].
  { pose proof (chirp_loop_entries (Z.to_nat (N d)) 0 (N d) ([], [])) as Hloop.
    change (Z.of_nat 0) with 0 in Hloop.
    change (phase_sum (N d) 0) with r_zero in Hloop.
    change (_upChirpTable d)
      with (chirp_loop (Z.to_nat (N d)) 0 (N d) r_zero ([], [])).1.
    change (_downChirpTable d)
      with (chirp_loop (Z.to_nat (N d)) 0 (N d) r_zero ([], [])).2.
    rewrite Hloop. split; reflexivity. }
  rewrite Hup, Hdown. unfold entry.
  split.
  - apply (lookup_map_seq
      (fun j => to_float (polar r_one (phase_sum (N d) (S j))))). lia.
  - apply (lookup_map_seq
      (fun j => to_float (conj (polar r_one (phase_sum (N d) (S j)))))). lia.
Qed.

(** ** Runs: idle calls, configuration and input accounting *)

(** A run on a stream that holds fewer than 2N samples does nothing, however
    many times [work] is called: block, heap and input are as before and
    every call is logged without effects. *)
Theorem run_starved_is_idle garbage k d h input :
  0 <= N d < 2 ^ 63 ->
  Z.of_nat (length input) < 2 * N d ->
  run garbage k d h input
  = Done (d, h, input, replicate k (_state d, no_effects)).
Proof.
  intros HN Hin. induction k as [|k IH]; [reflexivity|].
  assert (work garbage d h (stream_view d input) = Done (d, h, no_effects))
    as Hw.
  { unfold work. simpl. rewrite to_size_t_small by lia.
    destruct (Z.ltb_spec (Z.of_nat (length input)) (N d * 2)); [reflexivity|lia]. }
  rewrite (run_step _ _ _ _ _ _ _ _ Hw).
  change (drop (Z.to_nat (consumed no_effects)) input) with input.
  rewrite IH. reflexivity.
Qed.

(** A run never changes N, the chirp tables, the sync word, the MTU or the
    size of the detector window; it logs one entry per call, and what it
    leaves of the input is the input without the samples the calls
    consumed, taken from the front. *)
Theorem run_keeps_configuration garbage k : forall d h input d' h' rest log,
  run garbage k d h input = Done (d', h', rest, log) ->
  same_config d d'
  /\ length log = k
  /\ rest = drop (sum_list (map (fun s => Z.to_nat (consumed s.2)) log)) input.
Proof.
  induction k as [|k IH]; intros d h input d' h' rest log Hrun.
  - injection Hrun as <- <- <- <-.
    split; [apply same_config_refl|]. split; reflexivity.
  - simpl in Hrun.
    destruct (work garbage d h (stream_view d input)) as [[[d1 h1] e]|f] eqn:Hw;
      [|discriminate Hrun].
    rewrite result_bind_Done in Hrun.
    destruct (run garbage k d1 h1 (drop (Z.to_nat (consumed e)) input))
      as [[[[d2 h2] rest2] log2]|f] eqn:Hrun2; [|discriminate Hrun].
    injection Hrun as <- <- <- <-.
    destruct (IH _ _ _ _ _ _ _ Hrun2) as (Hcfg & Hlen & Hrest).
    split; [eapply same_config_trans; [eapply work_config; exact Hw|exact Hcfg]|].
    split; [simpl; rewrite Hlen; reflexivity|].
    rewrite Hrest, drop_drop. reflexivity.
Qed.

(** ** Buffer managers *)

(** For the debug ports "raw" and "dec" the block asks for buffers of
    exactly 2N samples, as output and as input manager; a call of [work] on
    fresh buffers of that size passes the two debug guards, so it goes on iff
    the input holds 2N samples. *)
Theorem debug_slabs_pass_the_guards name d :
  0 <= N d < 2 ^ 60 ->
  name = "raw"%string \/ name = "dec"%string ->
  manager_elements (getOutputBufferManager name d) = Some (2 * N d)
  /\ manager_elements (getInputBufferManager name d) = Some (2 * N d)
  /\ Z.of_nat (length (slab d)) = 2 * N d
  /\ forall input,
       ready d (stream_view d input) = true
       <-> 2 * N d <= Z.of_nat (length input).
Proof.
  intros HN Hname.
  assert (to_size_t (to_size_t (N d * 2) * sizeof_sample) / sizeof_sample
          = 2 * N d) as Hsize.
  { unfold sizeof_sample. rewrite (to_size_t_small (N d * 2)) by lia.
    rewrite to_size_t_small by lia.
    replace (N d * 2 * 8) with (2 * N d * 8) by lia.
    apply Z.div_mul. lia. }
  split.
  { destruct Hname as [-> | ->]; simpl; rewrite Hsize; reflexivity. }
  split.
  { destruct Hname as [-> | ->]; simpl; rewrite Hsize; reflexivity. }
  split; [apply slab_length; lia|].
  intros input. rewrite ready_true. simpl.
  rewrite slab_length by lia. rewrite to_size_t_small by lia. lia.
Qed.

(** ** The previous value *)

Lemma work_prevValue garbage d h v d' h' e :
  ready d v = true ->
  work garbage d h v = Done (d', h', e) ->
  _prevValue d' = to_int16 (detected d v).
Proof.
  intros Hr Hw.
  apply work_inv in Hw as [(Hr' & _)|(_ & s & _ & Hf)]; [congruence|].
  injection Hf as <- _ _. reflexivity.
Qed.

(** After a step that went past the guards, the preamble test [syncd] of the
    next step holds iff the symbol the step detected is 0: for N up to 2^15
    a near-zero previous symbol is the symbol 0 itself. *)
Theorem sync_needs_zero_symbol garbage d h v d' h' e :
  well_formed d ->
  N d <= 2 ^ 15 ->
  (forall w, length w = Z.to_nat (N d) -> 0 <= peak_bin w < N d) ->
  ready d v = true ->
  work garbage d h v = Done (d', h', e) ->
  syncd_of (_prevValue d') = true <-> detected d v = 0.
Proof.
  intros Hwf HN Hrange Hr Hw.
  rewrite (work_prevValue _ _ _ _ _ _ _ Hr Hw).
  pose proof (detected_range d v Hwf Hrange) as Hv.
  rewrite to_int16_small by lia. rewrite syncd_of_near_zero. lia.
Qed.

(** ** Packets *)

(** A call of [work] posts a packet exactly when it goes past the guards in
    state DATASYMBOLS and the symbol counter reaches the MTU; it then posts
    one packet, whose payload is the output buffer of the block, and leaves
    the block in FRAMESYNC. *)
Theorem packet_only_when_frame_completes garbage d h v d' h' e :
  work garbage d h v = Done (d', h', e) ->
  (posted e <> [] <->
     ready d v = true /\ _state d = STATE_DATASYMBOLS
     /\ _mtu d <= to_size_t (_symCount d + 1))
  /\ (posted e <> [] ->
      posted e = [_outSymbols d] /\ _state d' = STATE_FRAMESYNC
      /\ labels e = ["S"%string]).
Proof.
  intros Hw.
  apply work_inv in Hw as [(Hr & _ & _ & _ & Hp)|(Hr & s & Hs & Hf)].
  { rewrite Hp, Hr. split; [split; [congruence|]|congruence].
    intros (Hr' & _). discriminate Hr'. }
  injection Hf as <- _ <-. simpl. rewrite Hr.
  unfold switch in Hs. destruct (_state d) eqn:Hst.
  - injection Hs as <-. unfold case_FRAMESYNC.
    destruct (_ && _ && _); simpl;
      (split; [split; [congruence|]|congruence]);
      intros (_ & Hd & _); discriminate Hd.
  - injection Hs as <-. simpl.
    split; [split; [congruence|]|congruence].
    intros (_ & Hd & _); discriminate Hd.
  - injection Hs as <-. simpl.
    split; [split; [congruence|]|congruence].
    intros (_ & Hd & _); discriminate Hd.
  - injection Hs as <-. simpl.
    split; [split; [congruence|]|congruence].
    intros (_ & Hd & _); discriminate Hd.
  - apply case_DATASYMBOLS_inv in Hs as (h1 & _ & _ & _ & _ & Hs).
    destruct (Z.leb_spec (_mtu d) (to_size_t (_symCount d + 1))) as [Hle|Hlt];
      destruct Hs as [-> ->]; simpl.
    + split; [split; [tauto|discriminate]|]. tauto.
    + split; [split; [congruence|]|congruence]. intros (_ & _ & Hle). lia.
Qed.

(** ** The heap of symbol buffers *)

Lemma case_FRAMESYNC_heap d h v b value :
  sw_heap (case_FRAMESYNC d h v b value) = h.
Proof. unfold case_FRAMESYNC. destruct (_ && _ && _); reflexivity. Qed.

(** A call of [work] writes to no chunk but the output buffer of the block:
    every other chunk of the heap is as before, no chunk changes its number
    of cells, and the heap grows, by one chunk, exactly in a step taken in
    state DOWNCHIRP1. *)
Theorem work_writes_only_its_buffer garbage d h v d' h' e :
  work garbage d h v = Done (d', h', e) ->
  (forall l, _outSymbols d <> Some l -> (l < length h)%nat -> h' !! l = h !! l)
  /\ (forall l, (l < length h)%nat ->
        length (chunk_cells h' (Some l)) = length (chunk_cells h (Some l)))
  /\ (length h' = S (length h)
      \/ length h' = length h)
  /\ (length h' = S (length h) <->
        ready d v = true /\ _state d = STATE_DOWNCHIRP1).
Proof.
  intros Hw.
  assert (forall (P : Prop), length h = S (length h) -> P) as Habs
    by (intros P Hlen; lia).
  apply work_inv in Hw as [(Hr & _ & -> & _)|(Hr & s & Hs & Hf)].
  { repeat split; try tauto; try (intros; apply Habs; assumption).
    intros (Hr' & _). congruence. }
  injection Hf as _ <- _. rewrite Hr.
  unfold switch in Hs. destruct (_state d) eqn:Hst.
  - injection Hs as <-. rewrite case_FRAMESYNC_heap.
    repeat split; try tauto; try (intros; apply Habs; assumption);
      intros (_ & Hd); discriminate Hd.
  - injection Hs as <-. simpl.
    repeat split; try tauto; try (intros; apply Habs; assumption);
      intros (_ & Hd); discriminate Hd.
  - injection Hs as <-. simpl.
    split; [intros l _ Hl; apply lookup_app_l; exact Hl|].
    split; [intros l Hl; simpl; rewrite lookup_app_l by exact Hl; reflexivity|].
    split; [left; rewrite length_app; simpl; lia|].
    split; [tauto|]. intros _. rewrite length_app. simpl. lia.
  - injection Hs as <-. simpl.
    repeat split; try tauto; try (intros; apply Habs; assumption);
      intros (_ & Hd); discriminate Hd.
  - apply case_DATASYMBOLS_inv in Hs as (h1 & Hstore & -> & _).
    unfold store_symbol in Hstore.
    destruct (_outSymbols d) as [l0|]; [|discriminate Hstore].
    destruct (_symCount d <? Z.of_nat (length (chunk_cells h (Some l0))));
      [|discriminate Hstore].
    injection Hstore as <-.
    split.
    { intros l Hne _. apply list_lookup_insert_ne. congruence. }
    split.
    { intros l Hl. simpl. destruct (decide (l0 = l)) as [->|Hne].
      - rewrite list_lookup_insert_eq by exact Hl. simpl.
        apply length_insert.
      - rewrite list_lookup_insert_ne by exact Hne. reflexivity. }
    rewrite length_insert.
    split; [right; reflexivity|].
    split; [intros Hlen; lia|]. intros (_ & Hd). discriminate Hd.
Qed.

(** ** A positive MTU *)

(** With a positive MTU no call of [work] runs off the output buffer: in
    every state a run reaches from an activation, [work] returns, whatever
    the ports offer. *)
Theorem positive_mtu_never_overruns garbage d0 h0 d h cur fs v :
  0 <= _mtu d0 < 2 ^ 64 ->
  history d0 h0 d h cur fs ->
  0 < _mtu d ->
  exists d' h' e, work garbage d h v = Done (d', h', e).
Proof.
  intros Hmtu0 Hh Hpos.
  destruct (history_invariant _ _ _ _ _ _ Hmtu0 Hh)
    as (Hmtu & _ & _ & _ & _ & _ & Hbuf).
  destruct (ready d v) eqn:Hr.
  2:{ destruct (work_not_ready garbage d h v Hr) as (e & He & _).
      exists d, h, e. exact He. }
  destruct (_state d) eqn:Hst.
  - destruct (full_sync d v) eqn:Hf.
    + destruct (step_sync garbage d h v Hr Hst Hf) as (d' & e & Hw & _).
      exists d', h, e. exact Hw.
    + destruct (step_search garbage d h v Hr Hst Hf) as (d' & e & Hw & _).
      exists d', h, e. exact Hw.
  - destruct (step_DOWNCHIRP0 garbage d h v Hr Hst) as (d' & e & Hw & _).
    exists d', h, e. exact Hw.
  - destruct (step_DOWNCHIRP1 garbage d h v Hr Hst) as (d' & e & Hw & _).
    do 3 eexists. exact Hw.
  - destruct (step_QUARTERCHIRP garbage d h v Hr Hst) as (d' & e & Hw & _).
    exists d', h, e. exact Hw.
  - destruct Hbuf as ((l & cells & Hout & Hl & Hlen & _) & Hsym & _ & Hroom).
    destruct (step_DATASYMBOLS garbage d h v l cells Hr Hst Hout Hl)
      as (d' & e & Hw & _); [lia|lia|].
    do 3 eexists. exact Hw.
Qed.

(** ** The sync word *)

(** A symbol fits the nibbles of one sync word only: once [setSync] has
    replaced the sync word by a different byte, the two windows that
    achieved full sync no longer do, and the step stays in FRAMESYNC with
    the label "X", consuming N - value samples. *)
Theorem changed_sync_word_rejects garbage d h v sync d2 :
  ready d v = true ->
  _state d = STATE_FRAMESYNC ->
  0 <= _sync d < 256 ->
  0 <= sync < 256 ->
  sync <> _sync d ->
  0 <= detected d v < 2 ^ 64 - 4 ->
  0 <= detected1 d v < 2 ^ 64 - 4 ->
  full_sync d v = true ->
  setSync sync d = Done d2 ->
  exists d' e, work garbage d2 h v = Done (d', h, e)
    /\ _state d' = STATE_FRAMESYNC
    /\ consumed e = to_size_t (N d - detected d v)
    /\ labels e = ["X"%string] /\ posted e = [].
Proof.
  intros Hr Hst Hs0 Hs Hne Hv Hv1 Hf Hset. injection Hset as <-.
  assert (full_sync (set_sync sync d) v = false) as Hf2.
  { unfold full_sync in *.
    change (detected (set_sync sync d) v) with (detected d v).
    change (detected1 (set_sync sync d) v) with (detected1 d v).
    change (_prevValue (set_sync sync d)) with (_prevValue d).
    change (_sync (set_sync sync d)) with sync.
    apply andb_true_iff in Hf as [Hf H1]. apply andb_true_iff in Hf as [_ H0].
    apply match0_of_spec in H0; [|exact Hv].
    apply match1_of_spec in H1; [|exact Hv1].
    destruct (match0_of (detected d v) sync) eqn:K0;
      [|rewrite andb_false_r; reflexivity].
    destruct (match1_of (detected1 d v) sync) eqn:K1;
      [|rewrite andb_false_r; reflexivity].
    apply match0_of_spec in K0; [|exact Hv].
    apply match1_of_spec in K1; [|exact Hv1].
    exfalso. apply Hne.
    rewrite (Z.div_mod sync 16), (Z.div_mod (_sync d) 16) by lia.
    rewrite <- K0, <- K1, <- H0, <- H1. reflexivity. }
  destruct (step_search garbage (set_sync sync d) h v Hr Hst Hf2)
    as (d' & e & Hw & Hst' & _ & _ & _ & Hc & Hp & Hl).
  exists d', e. tauto.
Qed.

(** ** The debug buffers *)

(** The debug buffers after a dechirp loop: the [n] entries from [i + ofs]
    on are the samples of the window, raw and dechirped; the other entries
    are as before. *)
Lemma symbol_loop_debug n : forall i ofs inBuff chirp b,
  (i + ofs + n <= length (rawBuff b))%nat ->
  (i + ofs + n <= length (decBuff b))%nat ->
  (i + ofs + n <= length inBuff)%nat ->
  (i + n <= length chirp)%nat ->
  rawBuff (symbol_loop n i ofs inBuff chirp b)
  = take (i + ofs) (rawBuff b) ++ take n (drop (i + ofs) inBuff)
    ++ drop (i + ofs + n) (rawBuff b)
  /\ decBuff (symbol_loop n i ofs inBuff chirp b)
     = take (i + ofs) (decBuff b)
       ++ zip_with c_mul (take n (drop (i + ofs) inBuff)) (take n (drop i chirp))
       ++ drop (i + ofs + n) (decBuff b).
Proof.
  induction n as [|n IH]; intros i ofs inBuff chirp b Hraw Hdec Hin Hchirp.
  - simpl. rewrite !Nat.add_0_r, !take_drop. split; reflexivity.
  - destruct (lookup_lt_is_Some_2 inBuff (i + ofs)) as [x Hx]; [lia|].
    destruct (lookup_lt_is_Some_2 chirp i) as [c Hc]; [lia|].
    simpl symbol_loop.
    destruct (IH (S i) ofs inBuff chirp
      {| rawBuff := <[(i + ofs)%nat := at_index inBuff (i + ofs)]> (rawBuff b);
         decBuff := <[(i + ofs)%nat :=
                       c_mul (at_index inBuff (i + ofs)) (at_index chirp i)]>
                      (decBuff b);
         detBuff := feed i (c_mul (at_index inBuff (i + ofs)) (at_index chirp i))
                      (detBuff b) |}) as [-> ->]; simpl;
      rewrite ?length_insert; try lia.
    unfold at_index. rewrite Hx, Hc. simpl.
    rewrite (take_S_r _ (i + ofs) x) by (apply list_lookup_insert_eq; lia).
    rewrite (take_S_r _ (i + ofs) (c_mul x c))
      by (apply list_lookup_insert_eq; lia).
    rewrite !take_insert_ge by lia. rewrite !drop_insert_lt by lia.
    rewrite (drop_S inBuff x (i + ofs) Hx), (drop_S chirp c i Hc).
    simpl. rewrite <- !app_assoc. simpl.
    replace (S (i + ofs + n)) with (i + ofs + S n)%nat by lia.
    split; reflexivity.
Qed.

Lemma ready_lengths d v :
  well_formed d ->
  ready d v = true ->
  (2 * Z.to_nat (N d) <= length (in_buff v))%nat
  /\ (2 * Z.to_nat (N d) <= length (raw_buff v))%nat
  /\ (2 * Z.to_nat (N d) <= length (dec_buff v))%nat.
Proof.
  intros (HN & _) Hr. apply ready_true in Hr.
  rewrite to_size_t_small in Hr by lia. lia.
Qed.

Lemma chirp_table_length d :
  well_formed d -> length (chirp_table d) = Z.to_nat (N d).
Proof.
  intros (_ & _ & Hup & Hdown). unfold chirp_table.
  destruct (_chirpTable d); assumption.
Qed.

Lemma dechirped_length d inBuff :
  well_formed d ->
  (2 * Z.to_nat (N d) <= length inBuff)%nat ->
  length (zip_with c_mul (take (Z.to_nat (N d)) inBuff) (chirp_table d))
  = Z.to_nat (N d)
  /\ length (dechirped d inBuff) = (2 * Z.to_nat (N d))%nat.
Proof.
  intros Hwf Hin. pose proof (chirp_table_length d Hwf) as Hc.
  unfold dechirped.
  rewrite length_app, !length_zip_with, !length_take, length_drop. lia.
Qed.

(** What the first window leaves in the debug buffers: their first N
    entries are the first N input samples, raw and dechirped. *)
Lemma first_window_debug d v (k : nat) :
  well_formed d ->
  ready d v = true ->
  (k <= Z.to_nat (N d))%nat ->
  take k (rawBuff (first_window d v)) = take k (in_buff v)
  /\ take k (decBuff (first_window d v)) = take k (dechirped d (in_buff v)).
Proof.
  intros Hwf Hr Hk.
  destruct (ready_lengths d v Hwf Hr) as (Hin & Hraw & Hdec).
  pose proof (chirp_table_length d Hwf) as Hc.
  destruct (dechirped_length d (in_buff v) Hwf Hin) as [Hz _].
  unfold first_window.
  destruct (symbol_loop_debug (Z.to_nat (N d)) 0 0 (in_buff v) (chirp_table d)
    {| rawBuff := raw_buff v; decBuff := dec_buff v; detBuff := _detector d |})
    as [-> ->]; simpl; try lia.
  rewrite !drop_0. rewrite (take_ge (chirp_table d)) by lia.
  split.
  - rewrite take_app_le by (rewrite length_take; lia).
    rewrite take_take. f_equal. lia.
  - unfold dechirped. rewrite !take_app_le by lia. reflexivity.
Qed.

(** After the second window their first 2N entries are the first 2N input
    samples. *)
Lemma second_window_debug d v (k : nat) :
  well_formed d ->
  ready d v = true ->
  (k <= 2 * Z.to_nat (N d))%nat ->
  take k (rawBuff (second_window d v (first_window d v))) = take k (in_buff v)
  /\ take k (decBuff (second_window d v (first_window d v)))
     = take k (dechirped d (in_buff v)).
Proof.
  intros Hwf Hr Hk.
  destruct (ready_lengths d v Hwf Hr) as (Hin & Hraw & Hdec).
  pose proof (chirp_table_length d Hwf) as Hc.
  destruct (dechirped_length d (in_buff v) Hwf Hin) as [Hz Hzz].
  destruct (first_window_debug d v (Z.to_nat (N d)) Hwf Hr) as [Hr1 Hd1];
    [lia|].
  destruct (symbol_loop_length (Z.to_nat (N d)) 0 0 (in_buff v) (chirp_table d)
    {| rawBuff := raw_buff v; decBuff := dec_buff v; detBuff := _detector d |})
    as (_ & Hlr & Hld).
  fold (first_window d v) in Hlr, Hld. simpl in Hlr, Hld.
  unfold second_window.
  destruct (symbol_loop_debug (Z.to_nat (N d)) 0 (Z.to_nat (N d)) (in_buff v)
    (chirp_table d) (first_window d v)) as [-> ->]; simpl; try lia.
  rewrite ?drop_0. rewrite Hr1, Hd1. rewrite (take_ge (chirp_table d)) by lia.
  split.
  - rewrite app_assoc, take_take_drop.
    rewrite take_app_le by (rewrite length_take; lia).
    rewrite take_take. f_equal. lia.
  - assert (take (Z.to_nat (N d)) (dechirped d (in_buff v))
            = zip_with c_mul (take (Z.to_nat (N d)) (in_buff v)) (chirp_table d))
      as ->.
    { unfold dechirped. apply take_app_length'. symmetry. exact Hz. }
    rewrite app_assoc.
    change (zip_with c_mul (take (Z.to_nat (N d)) (in_buff v)) (chirp_table d)
            ++ zip_with c_mul
                 (take (Z.to_nat (N d)) (drop (Z.to_nat (N d)) (in_buff v)))
                 (chirp_table d))
      with (dechirped d (in_buff v)).
    rewrite take_app_le by lia. reflexivity.
Qed.

Lemma quarter_bounds n : 0 <= n -> 0 <= n / 4 <= n.
Proof.
  intros Hn. pose proof (Z.div_pos n 4 Hn ltac:(lia)).
  pose proof (Z.mul_div_le n 4 ltac:(lia)). lia.
Qed.

(** The locals of a step after the switch: the samples to consume, by
    state, and the window the debug buffers were written up to. *)
Lemma switch_accounting garbage d h v s :
  well_formed d ->
  0 <= detected d v < N d ->
  switch garbage d h v (first_window d v) (detected d v) = Done s ->
  sw_total s
  = match _state d with
    | STATE_FRAMESYNC =>
        if full_sync d v then 2 * N d else N d - detected d v
    | STATE_QUARTERCHIRP => N d / 4
    | _ => N d
    end
  /\ (sw_buffers s = first_window d v /\ sw_total s <= N d
      \/ sw_buffers s = second_window d v (first_window d v)).
Proof.
  intros (HN & _) Hv Hs. unfold switch in Hs.
  destruct (_state d) eqn:Hst.
  - injection Hs as <-.
    destruct (full_sync d v) eqn:Hf.
    + rewrite case_FRAMESYNC_full by exact Hf. simpl.
      rewrite to_size_t_small by lia. tauto.
    + unfold full_sync, detected1 in Hf. unfold case_FRAMESYNC.
      destruct (syncd_of (_prevValue d) && match0_of (detected d v) (_sync d)).
      * simpl in Hf. rewrite Hf. simpl.
        rewrite to_size_t_small by lia. tauto.
      * simpl. rewrite to_size_t_small by lia. split; [reflexivity|].
        left. split; [reflexivity|lia].
  - injection Hs as <-. simpl. split; [reflexivity|]. left. split; [reflexivity|lia].
  - injection Hs as <-. simpl. split; [reflexivity|]. left. split; [reflexivity|lia].
  - injection Hs as <-. simpl. split; [reflexivity|]. left.
    split; [reflexivity|]. apply quarter_bounds. lia.
  - apply case_DATASYMBOLS_inv in Hs as (h1 & _ & _ & -> & -> & _).
    split; [reflexivity|]. left. split; [reflexivity|lia].
Qed.

(** ** Consumption and the debug streams *)

(** What a call of [work] consumes, state by state: nothing when a guard
    stops it, 2N on full sync, N - value on a frame-sync search, N/4 in
    QUARTERCHIRP and N in the other states.  It is never more than 2N, so
    never more than the input holds, and at least one sample in every state
    but QUARTERCHIRP. *)
Theorem consumption_by_state garbage d h v d' h' e :
  well_formed d ->
  (forall w, length w = Z.to_nat (N d) -> 0 <= peak_bin w < N d) ->
  work garbage d h v = Done (d', h', e) ->
  consumed e
  = (if ready d v
     then match _state d with
          | STATE_FRAMESYNC =>
              if full_sync d v then 2 * N d else N d - detected d v
          | STATE_QUARTERCHIRP => N d / 4
          | _ => N d
          end
     else 0)
  /\ 0 <= consumed e <= 2 * N d
  /\ (ready d v = true -> consumed e <= Z.of_nat (length (in_buff v)))
  /\ (ready d v = true -> _state d <> STATE_QUARTERCHIRP -> 1 <= consumed e).
Proof.
  intros Hwf Hrange Hw.
  pose proof Hwf as (HN & _).
  pose proof (detected_range d v Hwf Hrange) as Hv.
  apply work_inv in Hw as [(Hr & _ & _ & Hc & _)|(Hr & s & Hs & Hf)].
  { rewrite Hr, Hc. repeat split; try lia; discriminate. }
  destruct (ready_lengths d v Hwf Hr) as (Hin & _).
  injection Hf as _ _ <-. simpl. rewrite Hr.
  destruct (switch_accounting _ _ _ _ _ Hwf Hv Hs) as [-> _].
  pose proof (quarter_bounds (N d) ltac:(lia)) as Hq.
  split; [reflexivity|].
  destruct (_state d); destruct (full_sync d v);
    repeat split; try lia; congruence.
Qed.

(** The raw debug port echoes the input and the dec debug port carries the
    input dechirped with the reference chirp of the state: what a call of
    [work] produces on them is the samples it consumes, as many and in the
    same order. *)
Theorem debug_ports_mirror_the_input garbage d h v d' h' e :
  well_formed d ->
  (forall w, length w = Z.to_nat (N d) -> 0 <= peak_bin w < N d) ->
  work garbage d h v = Done (d', h', e) ->
  raw_produced e = take (Z.to_nat (consumed e)) (in_buff v)
  /\ dec_produced e = take (Z.to_nat (consumed e)) (dechirped d (in_buff v))
  /\ (ready d v = true ->
      length (raw_produced e) = Z.to_nat (consumed e)
      /\ length (dec_produced e) = Z.to_nat (consumed e)).
Proof.
  intros Hwf Hrange Hw.
  pose proof Hwf as (HN & _).
  pose proof (detected_range d v Hwf Hrange) as Hv.
  destruct (ready d v) eqn:Hr.
  2:{ destruct (work_not_ready garbage d h v Hr)
        as (e0 & He0 & Hc & Hraw & Hdec & _).
      rewrite He0 in Hw. injection Hw as _ _ <-.
      rewrite Hc, Hraw, Hdec. simpl. repeat split; discriminate. }
  apply work_inv in Hw as [(Hr' & _)|(_ & s & Hs & Hf)]; [congruence|].
  destruct (ready_lengths d v Hwf Hr) as (Hin & _).
  destruct (dechirped_length d (in_buff v) Hwf Hin) as [_ Hzz].
  injection Hf as _ _ <-. simpl.
  destruct (switch_accounting _ _ _ _ _ Hwf Hv Hs) as [Htotal Hbuf].
  pose proof (quarter_bounds (N d) ltac:(lia)) as Hq.
  assert (0 <= sw_total s <= 2 * N d) as Hbound.
  { rewrite Htotal. destruct (_state d); destruct (full_sync d v); lia. }
  assert (take (Z.to_nat (sw_total s)) (rawBuff (sw_buffers s))
          = take (Z.to_nat (sw_total s)) (in_buff v)
          /\ take (Z.to_nat (sw_total s)) (decBuff (sw_buffers s))
             = take (Z.to_nat (sw_total s)) (dechirped d (in_buff v)))
    as [-> ->].
  { destruct Hbuf as [[-> Hle]| ->].
    - apply first_window_debug; [exact Hwf|exact Hr|lia].
    - apply second_window_debug; [exact Hwf|exact Hr|lia]. }
  split; [reflexivity|]. split; [reflexivity|].
  intros _. rewrite !length_take. lia.
Qed.

(** ** The preamble *)

Lemma match0_of_zero sync : 16 <= sync -> match0_of 0 sync = false.
Proof.
  intros Hs. unfold match0_of. rewrite Z.shiftr_div_pow2 by lia.
  change (to_size_t (0 + 4) / 8) with 0.
  apply Z.eqb_neq. intros Heq.
  pose proof (Z.div_le_lower_bound sync (2 ^ 4) 1 ltac:(lia) ltac:(lia)). lia.
Qed.

(** Blocks of symbol 0, as the up-chirps of a preamble give, keep the block
    in FRAMESYNC when the high nibble of the sync word is not 0: every block
    is consumed whole, no packet is posted, and after the first of them the
    preamble test [syncd] holds for the next step. *)
Theorem preamble_is_tracked garbage rest : forall blocks d h,
  well_formed d ->
  _state d = STATE_FRAMESYNC ->
  _chirpTable d = UpChirp ->
  16 <= _sync d ->
  Forall (fun b => length b = Z.to_nat (N d)
                   /\ symbol_of (_upChirpTable d) b = 0) blocks ->
  (Z.to_nat (N d) <= length rest)%nat ->
  exists d' log,
    run garbage (length blocks) d h (concat blocks ++ rest)
    = Done (d', h, rest, log)
    /\ same_config d d'
    /\ _state d' = STATE_FRAMESYNC /\ _chirpTable d' = UpChirp
    /\ (blocks <> [] -> syncd_of (_prevValue d') = true)
    /\ map fst log = replicate (length blocks) STATE_FRAMESYNC
    /\ Forall (fun s => consumed s.2 = N d /\ labels s.2 = ["X"%string]) log
    /\ packets log = [].
Proof.
  induction blocks as [|block blocks IH]; intros d h Hwf Hst Hch Hsync Hbs Hrest.
  - exists d, []. simpl. split; [reflexivity|].
    split; [apply same_config_refl|]. repeat split; try assumption.
    + congruence.
    + constructor.
  - pose proof Hwf as (HN & _).
    apply Forall_cons in Hbs as [[Hlen Hsym] Hbs].
    simpl concat. rewrite <- app_assoc.
    assert (detected d (stream_view d (block ++ concat blocks ++ rest)) = 0)
      as Hdet.
    { rewrite symbol_of_stream by assumption. exact Hsym. }
    assert (ready d (stream_view d (block ++ concat blocks ++ rest)) = true)
      as Hready.
    { apply ready_stream; [lia|]. rewrite !length_app. lia. }
    destruct (step_search garbage d h
      (stream_view d (block ++ concat blocks ++ rest)))
      as (d1 & e1 & Hw1 & Hst1 & Hch1 & _ & _ & Hc1 & Hp1 & Hl1).
    { exact Hready. }
    { exact Hst. }
    { unfold full_sync. rewrite Hdet, match0_of_zero by exact Hsync.
      rewrite andb_false_r. reflexivity. }
    pose proof (work_config _ _ _ _ _ _ _ Hw1) as Hcfg1.
    pose proof (same_config_well_formed _ _ Hcfg1 Hwf) as Hwf1.
    assert (_prevValue d1 = 0) as Hprev.
    { rewrite (work_prevValue _ _ _ _ _ _ _ Hready Hw1), Hdet.
      apply to_int16_small. lia. }
    rewrite Hdet, Z.sub_0_r, to_size_t_small in Hc1 by lia.
    change (length (block :: blocks)) with (S (length blocks)).
    rewrite (run_step _ _ _ _ _ _ _ _ Hw1), Hc1.
    rewrite drop_app_length' by lia.
    pose proof Hcfg1 as (HN1 & Hup1 & _ & Hsync1 & _).
    destruct (IH d1 h) as (d' & log & Hrun & Hcfg & Hst' & Hch' & Hsyncd
                           & Hlog & Hall & Hpk); try assumption.
    { congruence. }
    { lia. }
    { rewrite HN1, Hup1. exact Hbs. }
    { lia. }
    rewrite Hrun, result_bind_Done. cbv beta iota.
    exists d'. eexists. split; [reflexivity|].
    split; [eapply same_config_trans; eassumption|].
    split; [exact Hst'|]. split; [exact Hch'|].
    split.
    { intros _. destruct blocks as [|b bs].
      - injection Hrun as <- _. rewrite Hprev. reflexivity.
      - apply Hsyncd. discriminate. }
    split; [simpl; rewrite Hlog, Hst1; reflexivity|].
    split.
    { constructor; [simpl; tauto|].
      rewrite HN1 in Hall. exact Hall. }
    unfold packets in *. simpl. rewrite Hp1. exact Hpk.
Qed.

(** ** The transitions of the state machine *)

(** A call of [work] stays in its state when a guard stops it; otherwise
    DOWNCHIRP0, DOWNCHIRP1 and QUARTERCHIRP move on to the next state
    whatever the samples are, FRAMESYNC moves to DOWNCHIRP0 on full sync and
    stays otherwise, and DATASYMBOLS returns to FRAMESYNC when the symbol
    counter reaches the MTU and stays otherwise.  The symbol counter is
    reset in QUARTERCHIRP, counts up by one in DATASYMBOLS and is untouched
    in the other states. *)
Theorem state_transitions garbage d h v d' h' e :
  work garbage d h v = Done (d', h', e) ->
  _state d'
  = (if ready d v
     then match _state d with
          | STATE_FRAMESYNC =>
              if full_sync d v then STATE_DOWNCHIRP0 else STATE_FRAMESYNC
          | STATE_DOWNCHIRP0 => STATE_DOWNCHIRP1
          | STATE_DOWNCHIRP1 => STATE_QUARTERCHIRP
          | STATE_QUARTERCHIRP => STATE_DATASYMBOLS
          | STATE_DATASYMBOLS =>
              if _mtu d <=? to_size_t (_symCount d + 1)
              then STATE_FRAMESYNC else STATE_DATASYMBOLS
          end
     else _state d)
  /\ _symCount d'
     = (if ready d v
        then match _state d with
             | STATE_QUARTERCHIRP => 0
             | STATE_DATASYMBOLS => to_size_t (_symCount d + 1)
             | _ => _symCount d
             end
        else _symCount d).
Proof.
  intros Hw.
  destruct (ready d v) eqn:Hr.
  2:{ destruct (work_not_ready garbage d h v Hr) as (e0 & He0 & _).
      rewrite He0 in Hw. injection Hw as <- _ _. split; reflexivity. }
  apply work_inv in Hw as [(Hr' & _)|(_ & s & Hs & Hf)]; [congruence|].
  injection Hf as <- _ _. simpl.
  unfold switch in Hs. destruct (_state d) eqn:Hst.
  - injection Hs as <-. destruct (full_sync d v) eqn:Hf.
    + rewrite case_FRAMESYNC_full by exact Hf. split; reflexivity.
    + destruct (case_FRAMESYNC_search d h v Hf) as [b ->]. simpl.
      split; [exact Hst|reflexivity].
  - injection Hs as <-. split; reflexivity.
  - injection Hs as <-. split; reflexivity.
  - injection Hs as <-. split; reflexivity.
  - apply case_DATASYMBOLS_inv in Hs as (h1 & _ & _ & _ & _ & Hs).
    destruct (_mtu d <=? to_size_t (_symCount d + 1));
      destruct Hs as [-> _]; simpl; [tauto|]. split; [exact Hst|reflexivity].
Qed.

(** ** The frame in progress *)

(** In state DATASYMBOLS, in every run from an activation, the output
    buffer is a chunk of MTU cells that no posted frame refers to; the
    symbol counter is the number of symbols detected for the frame so far,
    the cells below it hold these symbols, in order, and with a positive MTU
    the counter is below the MTU. *)
Theorem frame_in_progress d0 h0 d h cur fs :
  0 <= _mtu d0 < 2 ^ 64 ->
  history d0 h0 d h cur fs ->
  _state d = STATE_DATASYMBOLS ->
  exists l cells,
    _outSymbols d = Some l /\ h !! l = Some cells
    /\ length cells = Z.to_nat (_mtu d)
    /\ Forall (fun f => payload f <> Some l) fs
    /\ _symCount d = Z.of_nat (length cur)
    /\ take (length cur) cells = map to_int16 cur
    /\ (0 < _mtu d -> _symCount d < _mtu d).
Proof.
  intros Hmtu0 Hh Hst.
  destruct (history_invariant _ _ _ _ _ _ Hmtu0 Hh)
    as (_ & _ & _ & _ & _ & _ & Hbuf).
  rewrite Hst in Hbuf.
  destruct Hbuf as ((l & cells & Hout & Hl & Hlen & _ & Hne)
                    & Hsym & Htake & Hroom).
  exists l, cells. rewrite Hout in Htake. simpl in Htake.
  rewrite Hl in Htake. simpl in Htake.
  repeat (split; [assumption|]). intros Hpos. lia.
Qed.

End Proofs.

(** * The theorems at work on the tone model *)

Section Witnesses.

#[local] Existing Instance Tone.numerics.
#[local] Existing Instance Tone.detector.

Lemma work_starved_is_noop_witness :
  exists e,
    work Tone.garbage Tone.tuned4 []
      {| in_buff := Tone.tone 1; raw_buff := slab Tone.tuned4;
         dec_buff := slab Tone.tuned4 |}
    = Done (Tone.tuned4, [], e)
    /\ consumed e = 0 /\ raw_produced e = [] /\ dec_produced e = []
    /\ labels e = [] /\ posted e = [].
Proof.
  apply (work_starved_is_noop Tone.garbage Tone.tuned4 []
    {| in_buff := Tone.tone 1; raw_buff := slab Tone.tuned4;
       dec_buff := slab Tone.tuned4 |}).
  - vm_compute. split; congruence.
  - left. vm_compute. reflexivity.
Defined.

Lemma framesync_consumption_witness :
  exists d' h' e,
    work Tone.garbage Tone.tuned4 [] (stream_view Tone.tuned4 Tone.frame_stream)
    = Done (d', h', e)
    /\ if full_sync Tone.tuned4 (stream_view Tone.tuned4 Tone.frame_stream)
       then consumed e = 2 * N Tone.tuned4
       else consumed e
            = N Tone.tuned4
              - detected Tone.tuned4 (stream_view Tone.tuned4 Tone.frame_stream)
            /\ 1 <= consumed e <= N Tone.tuned4.
Proof.
  apply (framesync_consumption Tone.garbage Tone.tuned4 []
    (stream_view Tone.tuned4 Tone.frame_stream)).
  - reflexivity.
  - reflexivity.
  - vm_compute. reflexivity.
  - vm_compute. split; congruence.
Defined.

Lemma framesync_decision_witness :
  let d := Tone.tuned4 in
  let v := stream_view Tone.tuned4 Tone.frame_stream in
  let syncd := syncd_of (_prevValue d) in
  let match0 := match0_of (detected d v) (_sync d) in
  let match1 := match1_of (detected1 d v) (_sync d) in
  (syncd = true <-> Z.quot (_prevValue d + 1) 2 = 0)
  /\ (match0 = true <-> (detected d v + 4) / 8 = _sync d / 16)
  /\ (match1 = true <-> (detected1 d v + 4) / 8 = _sync d mod 16)
  /\ exists d' h' e, work Tone.garbage d [] v = Done (d', h', e)
      /\ (_state d' = STATE_DOWNCHIRP0 <-> syncd && match0 && match1 = true)
      /\ (_chirpTable d' = DownChirp <-> syncd && match0 && match1 = true)
      /\ (labels e = ["SYNC"%string] <-> syncd && match0 && match1 = true)
      /\ (syncd && match0 && match1 = false ->
          _state d' = STATE_FRAMESYNC /\ _chirpTable d' = UpChirp
          /\ labels e = ["X"%string]).
Proof.
  apply (framesync_decision Tone.garbage Tone.tuned4 []
    (stream_view Tone.tuned4 Tone.frame_stream)).
  - reflexivity.
  - reflexivity.
  - reflexivity.
  - vm_compute. split; congruence.
  - vm_compute. split; congruence.
Defined.

Lemma chirp_follows_state_witness :
  exists d,
    reachable d /\ _state d = STATE_DOWNCHIRP0
    /\ (_chirpTable d = DownChirp <->
          _state d = STATE_DOWNCHIRP0 \/ _state d = STATE_DOWNCHIRP1)
    /\ (_chirpTable d = UpChirp <->
          _state d = STATE_FRAMESYNC \/ _state d = STATE_QUARTERCHIRP
          \/ _state d = STATE_DATASYMBOLS).
Proof.
  assert (exists d, reachable d /\ _state d = STATE_DOWNCHIRP0) as (d & Hd & Hst).
  { eexists. split.
    - eapply (reachable_work Tone.garbage (activate Tone.tuned4) []
        (stream_view Tone.tuned4 Tone.frame_stream)).
      + apply reachable_activate.
      + reflexivity.
    - reflexivity. }
  exists d. split; [exact Hd|]. split; [exact Hst|].
  apply (proj2 (proj2 chirp_follows_state) d Hd).
Defined.

(** C6 as stated fails: [setMTU] takes an MTU of zero and returns
    normally, with the zero stored. *)
Lemma zero_mtu_is_accepted :
  ~ rejects (setMTU 0 Tone.tuned4)
  /\ setMTU 0 Tone.tuned4 = Done (set_mtu 0 Tone.tuned4)
  /\ _mtu (set_mtu 0 Tone.tuned4) = 0.
Proof.
  split; [intros Hr; exact Hr|]. split; reflexivity.
Qed.

Lemma setMTU_stores_every_mtu_witness :
  (N (LoRaDemod 2 Tone.junk) = 2 ^ 2 /\ 0 < N (LoRaDemod 2 Tone.junk))
  /\ exists d', setMTU 0 Tone.tuned4 = Done d'
       /\ ~ rejects (setMTU 0 Tone.tuned4)
       /\ _mtu d' = 0
       /\ N d' = N Tone.tuned4 /\ _sync d' = _sync Tone.tuned4
       /\ _state d' = _state Tone.tuned4
       /\ _chirpTable d' = _chirpTable Tone.tuned4
       /\ _symCount d' = _symCount Tone.tuned4
       /\ _outSymbols d' = _outSymbols Tone.tuned4
       /\ _prevValue d' = _prevValue Tone.tuned4
       /\ _upChirpTable d' = _upChirpTable Tone.tuned4
       /\ _downChirpTable d' = _downChirpTable Tone.tuned4
       /\ _detector d' = _detector Tone.tuned4.
Proof.
  apply (setMTU_stores_every_mtu 2 Tone.junk 0 Tone.tuned4).
  - lia.
  - lia.
Defined.

Lemma zero_mtu_overruns_buffer_witness :
  exists d4 h4 log,
    run Tone.garbage 4 (set_mtu 0 (activate Tone.tuned4)) []
      (Tone.s0 ++ Tone.s1 ++ Tone.dc ++ Tone.dc ++ Tone.qc
       ++ Tone.tone 3 ++ Tone.tone 0)
    = Done (d4, h4, Tone.tone 3 ++ Tone.tone 0, log)
    /\ _state d4 = STATE_DATASYMBOLS /\ _symCount d4 = 0
    /\ chunk_cells h4 (_outSymbols d4) = []
    /\ work Tone.garbage d4 h4 (stream_view d4 (Tone.tone 3 ++ Tone.tone 0))
       = Fault (OutOfBounds 0 0)
    /\ run Tone.garbage 5 (set_mtu 0 (activate Tone.tuned4)) []
         (Tone.s0 ++ Tone.s1 ++ Tone.dc ++ Tone.dc ++ Tone.qc
          ++ Tone.tone 3 ++ Tone.tone 0)
       = Fault (OutOfBounds 0 0).
Proof.
  apply (zero_mtu_overruns_buffer Tone.garbage Tone.tuned4
    (set_mtu 0 (activate Tone.tuned4)) []
    Tone.s0 Tone.s1 Tone.dc Tone.dc Tone.qc (Tone.tone 3 ++ Tone.tone 0)).
  - vm_compute. repeat split; congruence.
  - reflexivity.
  - reflexivity.
  - reflexivity.
  - reflexivity.
  - reflexivity.
  - reflexivity.
  - reflexivity.
  - reflexivity.
  - reflexivity.
  - vm_compute. repeat constructor.
Defined.


Lemma tone_detector_range (w : list (@cplx Tone.numerics)) :
  length w = Z.to_nat (N Tone.tuned4) -> 0 <= peak_bin w < N Tone.tuned4.
Proof.
  intros Hw. change (N Tone.tuned4) with 4 in *.
  change (peak_bin w) with (hd 0 w mod Z.of_nat (length w)).
  rewrite Hw. apply Z.mod_pos_bound. reflexivity.
Qed.

Lemma tone_frame_history :
  exists d h cur fs,
    history Tone.tuned4 [] d h cur fs /\ map payload fs = [Some 0%nat].
Proof.
  assert (exists d' h' rest log,
    run Tone.garbage 6 Tone.tuned4 [] Tone.frame_stream
    = Done (d', h', rest, log) /\ packets log = [Some 0%nat])
    as (d' & h' & rest & log & Hrun & Hpk).
  { vm_compute. do 4 eexists. split; reflexivity. }
  destruct (run_history Tone.garbage Tone.tuned4 [] 6 Tone.tuned4 []
    Tone.frame_stream [] [] d' h' rest log) as (cur & fs & Hh & Hp).
  - apply history_activate.
  - exact Hrun.
  - exists d', h', cur, fs. split; [exact Hh|]. rewrite Hp, Hpk. reflexivity.
Qed.

Lemma tone_midframe :
  _state Tone.midframe.1 = STATE_DATASYMBOLS
  /\ _outSymbols Tone.midframe.1 = Some 0%nat
  /\ Tone.midframe.2 = [[3; 99]].
Proof. repeat split; reflexivity. Qed.

Lemma tone_reactivated_history :
  exists d h cur fs,
    history Tone.midframe.1 Tone.midframe.2 d h cur fs
    /\ map payload fs = [Some 1%nat].
Proof.
  assert (exists d' h' rest log,
    run Tone.garbage 7 (activate Tone.midframe.1) Tone.midframe.2
      Tone.preamble_stream
    = Done (d', h', rest, log) /\ packets log = [Some 1%nat])
    as (d' & h' & rest & log & Hrun & Hpk).
  { vm_compute. do 4 eexists. split; reflexivity. }
  destruct (run_history Tone.garbage Tone.midframe.1 Tone.midframe.2 7
    (activate Tone.midframe.1) Tone.midframe.2
    Tone.preamble_stream [] [] d' h' rest log) as (cur & fs & Hh & Hp).
  - apply history_activate.
  - exact Hrun.
  - exists d', h', cur, fs. split; [exact Hh|]. rewrite Hp, Hpk. reflexivity.
Qed.

Lemma emitted_frames_witness :
  exists d h cur fs,
    history Tone.tuned4 [] d h cur fs
    /\ map payload fs = [Some 0%nat]
    /\ NoDup (map payload fs)
    /\ Forall (fun f => exists l, payload f = Some l
          /\ h !! l = Some (symbols f)
          /\ Z.of_nat (length (symbols f)) = frame_mtu f
          /\ Forall (fun x => 0 <= x < 2 ^ 16) (symbols f)) fs.
Proof.
  destruct tone_frame_history as (d & h & cur & fs & Hh & Hp).
  exists d, h, cur, fs. split; [exact Hh|]. split; [exact Hp|].
  apply (emitted_frames Tone.tuned4 [] d h cur fs).
  - vm_compute. repeat split; congruence.
  - vm_compute. congruence.
  - vm_compute. split; congruence.
  - exact tone_detector_range.
  - exact Hh.
Defined.

Lemma reactivation_discards_buffer_witness :
  exists d h cur fs,
    history Tone.midframe.1 Tone.midframe.2 d h cur fs
    /\ map payload fs = [Some 1%nat]
    /\ _state (activate Tone.midframe.1) = STATE_FRAMESYNC
    /\ (forall l, (l < length Tone.midframe.2)%nat ->
          h !! l = Tone.midframe.2 !! l)
    /\ Forall (fun f => exists l, payload f = Some l
          /\ (length Tone.midframe.2 <= l)%nat
          /\ (forall l0, _outSymbols Tone.midframe.1 = Some l0 ->
                (l0 < length Tone.midframe.2)%nat -> l <> l0)
          /\ h !! l = Some (map to_int16 (symbols f))) fs.
Proof.
  destruct tone_reactivated_history as (d & h & cur & fs & Hh & Hp).
  exists d, h, cur, fs. split; [exact Hh|]. split; [exact Hp|].
  apply (reactivation_discards_buffer Tone.midframe.1 Tone.midframe.2 d h cur fs).
  - vm_compute. split; congruence.
  - exact Hh.
Defined.

(** ** Further properties on the tone model *)

Lemma tone_first_step :
  exists d' h' e,
    work Tone.garbage Tone.tuned4 [] (stream_view Tone.tuned4 Tone.frame_stream)
    = Done (d', h', e).
Proof. vm_compute. do 3 eexists. reflexivity. Qed.

Lemma tone_well_formed : well_formed Tone.tuned4.
Proof. vm_compute. repeat split; congruence. Qed.

Lemma tone_frame_run :
  exists d' h' rest log,
    run Tone.garbage 6 Tone.tuned4 [] Tone.frame_stream
    = Done (d', h', rest, log).
Proof. vm_compute. do 4 eexists. reflexivity. Qed.

Lemma LoRaDemod_well_formed_witness : well_formed (LoRaDemod 2 Tone.junk).
Proof. apply (LoRaDemod_well_formed 2 Tone.junk). lia. Defined.

Lemma chirp_tables_are_conjugate_entries_witness :
  let d := LoRaDemod 2 Tone.junk in
  let entry := polar r_one (phase_sum (N d) 2) in
  _downChirpTable d !! 1%nat = Some (to_float entry)
  /\ _upChirpTable d !! 1%nat = Some (to_float (conj entry)).
Proof.
  apply (chirp_tables_are_conjugate_entries 2 Tone.junk 1).
  - lia.
  - reflexivity.
Defined.

Lemma run_starved_is_idle_witness :
  run Tone.garbage 3 Tone.tuned4 [] (Tone.tone 1)
  = Done (Tone.tuned4, [], Tone.tone 1,
          replicate 3 (_state Tone.tuned4, no_effects)).
Proof.
  apply (run_starved_is_idle Tone.garbage 3 Tone.tuned4 [] (Tone.tone 1)).
  - vm_compute. split; congruence.
  - vm_compute. reflexivity.
Defined.

Lemma run_keeps_configuration_witness :
  exists d' rest (log : list (LoraDemodState * effects)),
    same_config Tone.tuned4 d'
    /\ length log = 6%nat
    /\ rest = drop (sum_list (map (fun s => Z.to_nat (consumed s.2)) log))
                Tone.frame_stream.
Proof.
  destruct tone_frame_run as (d' & h' & rest & log & Hrun).
  exists d', rest, log.
  apply (run_keeps_configuration Tone.garbage 6 Tone.tuned4 []
    Tone.frame_stream d' h' rest log Hrun).
Defined.

Lemma debug_slabs_pass_the_guards_witness :
  manager_elements (getOutputBufferManager "raw" Tone.tuned4)
  = Some (2 * N Tone.tuned4)
  /\ manager_elements (getInputBufferManager "raw" Tone.tuned4)
     = Some (2 * N Tone.tuned4)
  /\ Z.of_nat (length (slab Tone.tuned4)) = 2 * N Tone.tuned4
  /\ forall input,
       ready Tone.tuned4 (stream_view Tone.tuned4 input) = true
       <-> 2 * N Tone.tuned4 <= Z.of_nat (length input).
Proof.
  apply (debug_slabs_pass_the_guards "raw" Tone.tuned4).
  - vm_compute. split; congruence.
  - left. reflexivity.
Defined.

Lemma sync_needs_zero_symbol_witness :
  exists d',
    syncd_of (_prevValue d') = true
    <-> detected Tone.tuned4 (stream_view Tone.tuned4 Tone.frame_stream) = 0.
Proof.
  destruct tone_first_step as (d' & h' & e & Hw). exists d'.
  apply (sync_needs_zero_symbol Tone.garbage Tone.tuned4 []
    (stream_view Tone.tuned4 Tone.frame_stream) d' h' e).
  - exact tone_well_formed.
  - vm_compute. congruence.
  - exact tone_detector_range.
  - reflexivity.
  - exact Hw.
Defined.

Lemma packet_only_when_frame_completes_witness :
  let d := Tone.tuned4 in
  let v := stream_view Tone.tuned4 Tone.frame_stream in
  exists d' e,
    (posted e <> [] <->
       ready d v = true /\ _state d = STATE_DATASYMBOLS
       /\ _mtu d <= to_size_t (_symCount d + 1))
    /\ (posted e <> [] ->
        posted e = [_outSymbols d] /\ _state d' = STATE_FRAMESYNC
        /\ labels e = ["S"%string]).
Proof.
  destruct tone_first_step as (d' & h' & e & Hw). exists d', e.
  apply (packet_only_when_frame_completes Tone.garbage Tone.tuned4 []
    (stream_view Tone.tuned4 Tone.frame_stream) d' h' e Hw).
Defined.

Lemma work_writes_only_its_buffer_witness :
  let d := Tone.tuned4 in
  let v := stream_view Tone.tuned4 Tone.frame_stream in
  exists h',
    (forall l, _outSymbols d <> Some l -> (l < length (@nil (list Z)))%nat ->
       h' !! l = (@nil (list Z)) !! l)
    /\ (forall l, (l < length (@nil (list Z)))%nat ->
          length (chunk_cells h' (Some l)) = length (chunk_cells [] (Some l)))
    /\ (length h' = S (length (@nil (list Z)))
        \/ length h' = length (@nil (list Z)))
    /\ (length h' = S (length (@nil (list Z))) <->
          ready d v = true /\ _state d = STATE_DOWNCHIRP1).
Proof.
  destruct tone_first_step as (d' & h' & e & Hw). exists h'.
  apply (work_writes_only_its_buffer Tone.garbage Tone.tuned4 []
    (stream_view Tone.tuned4 Tone.frame_stream) d' h' e Hw).
Defined.

Lemma positive_mtu_never_overruns_witness :
  exists d' h' e,
    work Tone.garbage (activate Tone.tuned4) []
      (stream_view Tone.tuned4 Tone.frame_stream)
    = Done (d', h', e).
Proof.
  apply (positive_mtu_never_overruns Tone.garbage Tone.tuned4 []
    (activate Tone.tuned4) [] [] []
    (stream_view Tone.tuned4 Tone.frame_stream)).
  - vm_compute. split; congruence.
  - apply history_activate.
  - reflexivity.
Defined.

Lemma changed_sync_word_rejects_witness :
  let v := stream_view Tone.tuned4 Tone.frame_stream in
  exists d' e,
    work Tone.garbage (set_sync 1 Tone.tuned4) [] v = Done (d', [], e)
    /\ _state d' = STATE_FRAMESYNC
    /\ consumed e = to_size_t (N Tone.tuned4 - detected Tone.tuned4 v)
    /\ labels e = ["X"%string] /\ posted e = [].
Proof.
  apply (changed_sync_word_rejects Tone.garbage Tone.tuned4 []
    (stream_view Tone.tuned4 Tone.frame_stream) 1 (set_sync 1 Tone.tuned4)).
  - reflexivity.
  - reflexivity.
  - vm_compute. split; congruence.
  - lia.
  - vm_compute. congruence.
  - vm_compute. split; congruence.
  - vm_compute. split; congruence.
  - reflexivity.
  - reflexivity.
Defined.

Lemma consumption_by_state_witness :
  let d := Tone.tuned4 in
  let v := stream_view Tone.tuned4 Tone.frame_stream in
  exists e,
    consumed e
    = (if ready d v
       then match _state d with
            | STATE_FRAMESYNC =>
                if full_sync d v then 2 * N d else N d - detected d v
            | STATE_QUARTERCHIRP => N d / 4
            | _ => N d
            end
       else 0)
    /\ 0 <= consumed e <= 2 * N d
    /\ (ready d v = true -> consumed e <= Z.of_nat (length (in_buff v)))
    /\ (ready d v = true -> _state d <> STATE_QUARTERCHIRP -> 1 <= consumed e).
Proof.
  destruct tone_first_step as (d' & h' & e & Hw). exists e.
  apply (consumption_by_state Tone.garbage Tone.tuned4 []
    (stream_view Tone.tuned4 Tone.frame_stream) d' h' e).
  - exact tone_well_formed.
  - exact tone_detector_range.
  - exact Hw.
Defined.

Lemma debug_ports_mirror_the_input_witness :
  let d := Tone.tuned4 in
  let v := stream_view Tone.tuned4 Tone.frame_stream in
  exists e,
    raw_produced e = take (Z.to_nat (consumed e)) (in_buff v)
    /\ dec_produced e = take (Z.to_nat (consumed e)) (dechirped d (in_buff v))
    /\ (ready d v = true ->
        length (raw_produced e) = Z.to_nat (consumed e)
        /\ length (dec_produced e) = Z.to_nat (consumed e)).
Proof.
  destruct tone_first_step as (d' & h' & e & Hw). exists e.
  apply (debug_ports_mirror_the_input Tone.garbage Tone.tuned4 []
    (stream_view Tone.tuned4 Tone.frame_stream) d' h' e).
  - exact tone_well_formed.
  - exact tone_detector_range.
  - exact Hw.
Defined.

Lemma preamble_is_tracked_witness :
  let d := set_sync 18 Tone.tuned4 in
  let blocks := [Tone.tone 0; Tone.tone 0] in
  exists d' log,
    run Tone.garbage (length blocks) d [] (concat blocks ++ Tone.tone 1)
    = Done (d', [], Tone.tone 1, log)
    /\ same_config d d'
    /\ _state d' = STATE_FRAMESYNC /\ _chirpTable d' = UpChirp
    /\ (blocks <> [] -> syncd_of (_prevValue d') = true)
    /\ map fst log = replicate (length blocks) STATE_FRAMESYNC
    /\ Forall (fun s => consumed s.2 = N d /\ labels s.2 = ["X"%string]) log
    /\ packets log = [].
Proof.
  apply (preamble_is_tracked Tone.garbage (Tone.tone 1)
    [Tone.tone 0; Tone.tone 0] (set_sync 18 Tone.tuned4) []).
  - exact tone_well_formed.
  - reflexivity.
  - reflexivity.
  - vm_compute. congruence.
  - repeat constructor.
  - vm_compute. repeat constructor.
Defined.

Lemma state_transitions_witness :
  let d := Tone.tuned4 in
  let v := stream_view Tone.tuned4 Tone.frame_stream in
  exists d',
    _state d'
    = (if ready d v
       then match _state d with
            | STATE_FRAMESYNC =>
                if full_sync d v then STATE_DOWNCHIRP0 else STATE_FRAMESYNC
            | STATE_DOWNCHIRP0 => STATE_DOWNCHIRP1
            | STATE_DOWNCHIRP1 => STATE_QUARTERCHIRP
            | STATE_QUARTERCHIRP => STATE_DATASYMBOLS
            | STATE_DATASYMBOLS =>
                if _mtu d <=? to_size_t (_symCount d + 1)
                then STATE_FRAMESYNC else STATE_DATASYMBOLS
            end
       else _state d)
    /\ _symCount d'
       = (if ready d v
          then match _state d with
               | STATE_QUARTERCHIRP => 0
               | STATE_DATASYMBOLS => to_size_t (_symCount d + 1)
               | _ => _symCount d
               end
          else _symCount d).
Proof.
  destruct tone_first_step as (d' & h' & e & Hw). exists d'.
  apply (state_transitions Tone.garbage Tone.tuned4 []
    (stream_view Tone.tuned4 Tone.frame_stream) d' h' e Hw).
Defined.

Lemma tone_midframe_history :
  exists cur fs, history Tone.tuned4 [] Tone.midframe.1 Tone.midframe.2 cur fs.
Proof.
  assert (exists rest log,
    run Tone.garbage 5 Tone.tuned4 [] Tone.frame_stream
    = Done (Tone.midframe.1, Tone.midframe.2, rest, log))
    as (rest & log & Hrun).
  { vm_compute. do 2 eexists. reflexivity. }
  destruct (run_history Tone.garbage Tone.tuned4 [] 5 Tone.tuned4 []
    Tone.frame_stream [] [] Tone.midframe.1 Tone.midframe.2 rest log)
    as (cur & fs & Hh & _).
  - apply history_activate.
  - exact Hrun.
  - exists cur, fs. exact Hh.
Qed.

Lemma frame_in_progress_witness :
  exists cur fs l cells,
    _outSymbols Tone.midframe.1 = Some l /\ Tone.midframe.2 !! l = Some cells
    /\ length cells = Z.to_nat (_mtu Tone.midframe.1)
    /\ Forall (fun f => payload f <> Some l) fs
    /\ _symCount Tone.midframe.1 = Z.of_nat (length cur)
    /\ take (length cur) cells = map to_int16 cur
    /\ (0 < _mtu Tone.midframe.1 ->
        _symCount Tone.midframe.1 < _mtu Tone.midframe.1).
Proof.
  destruct tone_midframe_history as (cur & fs & Hh).
  exists cur, fs.
  apply (frame_in_progress Tone.tuned4 [] Tone.midframe.1 Tone.midframe.2
    cur fs).
  - vm_compute. split; congruence.
  - exact Hh.
  - reflexivity.
Defined.

End Witnesses.
